(** * sync_to_confluence: Markdown to Confluence storage format, and page
      reconciliation

    A shallow embedding of [tools/confluence-sync/sync_to_confluence.py].
    The copy under [scripts/] is an earlier state of the same script,
    without the image stage, the attachment upload and the title search;
    what differs in it is embedded in [Module Scripts].

    Text is a list of Unicode code points ([N]), as a Python [str] is.
    The regular expressions of the script are written in a small abstract
    syntax and run by a backtracking matcher that follows the priorities
    of Python's [re] module (leftmost match, greedy and lazy repetition).
    The remote wiki and the file system are parameters: the script is a
    function of the answers it gets, and a run yields the requests sent
    and the lines printed. *)

From Stdlib Require Import NArith ZArith List Bool Lia.
From Stdlib Require Import Strings.String Strings.Ascii.
From stdpp Require Import base option list gmap.

Import ListNotations.
Local Open Scope N_scope.
Local Open Scope list_scope.

(* ------------------------------------------------------------------ *)
(** ** Text *)

Definition char := N.
Definition text := list char.

Definition ch (a : ascii) : char := N_of_ascii a.
Arguments ch a%_char.

Definition u (s : string) : text := List.map ch (list_ascii_of_string s).
Arguments u s%_string.

Definition nl : char := 10.
Definition dq : char := 34.

(** Python's [str.isspace] on one code point; the class [\s] of [re] on
    [str] patterns and [str.strip()] both use it. *)
Definition is_space (c : char) : bool :=
  ((9 <=? c) && (c <=? 13)) || ((28 <=? c) && (c <=? 32))
  || (c =? 133) || (c =? 160) || (c =? 5760)
  || ((8192 <=? c) && (c <=? 8202))
  || (c =? 8232) || (c =? 8233) || (c =? 8239) || (c =? 8287)
  || (c =? 12288).

(** [.] without [re.DOTALL], and with it. *)
Definition dot (c : char) : bool := negb (c =? nl).
Definition dot_all (_ : char) : bool := true.

Definition is_char (a : char) (c : char) : bool := c =? a.

(** [s.startswith(p)] *)
Fixpoint startswith (p s : text) : bool :=
  match p, s with
  | [], _ => true
  | _ :: _, [] => false
  | a :: p', b :: s' => (a =? b) && startswith p' s'
  end.

(** [c in s] for a single character. *)
Definition contains (c : char) (s : text) : bool := existsb (N.eqb c) s.

(** [s.count(c)] for a single character. *)
Definition occurrences (c : char) (s : text) : nat :=
  List.length (List.filter (N.eqb c) s).

(** No two adjacent occurrences of a character. *)
Fixpoint no_pair (c : char) (s : text) : bool :=
  match s with
  | a :: (b :: _) as t => negb ((a =? c) && (b =? c)) && no_pair c t
  | _ => true
  end.


(** [s.lstrip(...)], [s.rstrip(...)], [s.strip(...)] for a class of
    characters. *)
Fixpoint lstrip_by (p : char -> bool) (s : text) : text :=
  match s with
  | c :: s' => if p c then lstrip_by p s' else s
  | [] => []
  end.

Definition rstrip_by (p : char -> bool) (s : text) : text :=
  rev (lstrip_by p (rev s)).

Definition strip_by (p : char -> bool) (s : text) : text :=
  rstrip_by p (lstrip_by p s).

(** [s.strip()] *)
Definition strip (s : text) : text := strip_by is_space s.

(** [s.split(sep)] for a one-character separator: the pieces between the
    separators, always at least one piece. *)
Fixpoint split (sep : char) (s : text) : list text :=
  match s with
  | [] => [[]]
  | c :: s' =>
      if c =? sep then [] :: split sep s'
      else match split sep s' with
           | p :: ps => (c :: p) :: ps
           | [] => [[c]]
           end
  end.

(** [s.split(sep, 1)] for a one-character separator known to occur:
    the text before the first separator and the text after it. *)
Fixpoint split_once (sep : char) (s : text) : text * text :=
  match s with
  | [] => ([], [])
  | c :: s' =>
      if c =? sep then ([], s')
      else let '(a, b) := split_once sep s' in (c :: a, b)
  end.

Definition cons_head (c : char) (l : list text) : list text :=
  match l with
  | p :: ps => (c :: p) :: ps
  | [] => [[c]]
  end.

(** [s.split('\n\n')]: the separator is found from the left, without
    overlap; [skip] is set while the second character of a separator is
    passed over. *)
Fixpoint split_blank_go (skip : bool) (s : text) : list text :=
  match s with
  | [] => [[]]
  | c :: s' =>
      if skip then split_blank_go false s'
      else match s' with
           | d :: _ =>
               if (c =? nl) && (d =? nl) then [] :: split_blank_go true s'
               else cons_head c (split_blank_go false s')
           | [] => [[c]]
           end
  end.

Definition split_blank (s : text) : list text := split_blank_go false s.

(** [sep.join(l)] *)
Fixpoint join (sep : text) (l : list text) : text :=
  match l with
  | [] => []
  | [x] => x
  | x :: l' => x ++ sep ++ join sep l'
  end.

(* ------------------------------------------------------------------ *)
(** ** Regular expressions

    The fragment of Python's [re] syntax the script uses: literals, the
    anchors, repetition of a character class (greedy [c*], [c+] and lazy
    [c*?]), capture groups and concatenation. *)

Inductive mode := Greedy | Lazy.

Inductive regex :=
| Eps
| Lit (c : char)
| Bol                       (* ^ under re.MULTILINE *)
| Eol                       (* $ under re.MULTILINE *)
| Bos                       (* ^ without re.MULTILINE *)
| Eos                       (* $ without re.MULTILINE *)
| Rep (m : mode) (lo : nat) (cls : char -> bool)
| Grp (r : regex)
| Cat (r1 r2 : regex).

Fixpoint seq_re (l : list regex) : regex :=
  match l with
  | [] => Eps
  | [r] => r
  | r :: l' => Cat r (seq_re l')
  end.

Definition lits (s : text) : regex := seq_re (List.map Lit s).

(** The result of a match: its length and the texts of its groups, in the
    order of the groups. *)
Definition found := (nat * list text)%type.

(** Greedy repetition of a class: take a character when possible and fall
    back to stopping here when the rest of the pattern then fails. *)
Fixpoint rep_greedy (cls : char -> bool) (lo n : nat) (prev : option char)
    (suf : text) (k : nat -> option char -> text -> option found)
    : option found :=
  let stop := match lo with O => k n prev suf | S _ => None end in
  match suf with
  | c :: suf' =>
      if cls c then
        match rep_greedy cls (Nat.pred lo) (S n) (Some c) suf' k with
        | Some r => Some r
        | None => stop
        end
      else stop
  | [] => stop
  end.

(** Lazy repetition: stop here when the rest of the pattern matches, and
    take one more character otherwise. *)
Fixpoint rep_lazy (cls : char -> bool) (lo n : nat) (prev : option char)
    (suf : text) (k : nat -> option char -> text -> option found)
    : option found :=
  let more :=
    match suf with
    | c :: suf' =>
        if cls c then rep_lazy cls (Nat.pred lo) (S n) (Some c) suf' k
        else None
    | [] => None
    end in
  match lo with
  | O => match k n prev suf with
         | Some r => Some r
         | None => more
         end
  | S _ => more
  end.

(** The matcher, in continuation-passing style: [n] characters are
    consumed so far, [prev] is the character before the current position
    ([None] at the start of the text), [suf] is the text from the current
    position on and [cs] the groups closed so far. *)
Fixpoint run (r : regex) (n : nat) (prev : option char) (suf : text)
    (cs : list text)
    (k : nat -> option char -> text -> list text -> option found)
    : option found :=
  match r with
  | Eps => k n prev suf cs
  | Lit c =>
      match suf with
      | x :: suf' => if x =? c then k (S n) (Some x) suf' cs else None
      | [] => None
      end
  | Bol =>
      match prev with
      | None => k n prev suf cs
      | Some p => if p =? nl then k n prev suf cs else None
      end
  | Eol =>
      match suf with
      | [] => k n prev suf cs
      | x :: _ => if x =? nl then k n prev suf cs else None
      end
  | Bos =>
      match prev with
      | None => k n prev suf cs
      | Some _ => None
      end
  | Eos =>
      match suf with
      | [] => k n prev suf cs
      | [x] => if x =? nl then k n prev suf cs else None
      | _ => None
      end
  | Rep Greedy lo cls =>
      rep_greedy cls lo n prev suf (fun n' p' s' => k n' p' s' cs)
  | Rep Lazy lo cls =>
      rep_lazy cls lo n prev suf (fun n' p' s' => k n' p' s' cs)
  | Grp r1 =>
      run r1 n prev suf cs
        (fun n' p' s' cs' => k n' p' s' (cs' ++ [firstn (n' - n) suf]))
  | Cat r1 r2 =>
      run r1 n prev suf cs (fun n' p' s' cs' => run r2 n' p' s' cs' k)
  end.

(** A match of [r] that starts at the current position. *)
Definition match_at (r : regex) (prev : option char) (suf : text)
    : option found :=
  run r 0 prev suf [] (fun n _ _ cs => Some (n, cs)).

(** [re.match(r, s)] *)
Definition re_match (r : regex) (s : text) : option found :=
  match_at r None s.

(** The pieces [re.sub] cuts a text into: characters outside every match
    and the matches, from the left and without overlap. *)
Inductive chunk :=
| Plain (c : char)
| Hit (groups : list text).

(** [skip] counts the characters of the last match still to pass over.
    A match of length zero is replaced and the scan moves one character
    on; every pattern of the script contains a literal, so none of them
    has such a match. *)
Fixpoint scan (r : regex) (prev : option char) (suf : text) (skip : nat)
    : list chunk :=
  match suf with
  | [] =>
      match skip with
      | O => match match_at r prev [] with
             | Some (_, g) => [Hit g]
             | None => []
             end
      | S _ => []
      end
  | c :: suf' =>
      match skip with
      | S k => scan r (Some c) suf' k
      | O =>
          match match_at r prev suf with
          | Some (O, g) => Hit g :: Plain c :: scan r (Some c) suf' 0
          | Some (S len, g) => Hit g :: scan r (Some c) suf' len
          | None => Plain c :: scan r (Some c) suf' 0
          end
      end
  end.

Definition chunks (r : regex) (s : text) : list chunk := scan r None s 0.

(** [re.sub(r, repl, s)] with a replacement function of the groups. *)
Fixpoint subst (repl : list text -> text) (l : list chunk) : text :=
  match l with
  | [] => []
  | Plain c :: l' => c :: subst repl l'
  | Hit g :: l' => repl g ++ subst repl l'
  end.

Definition re_sub (r : regex) (repl : list text -> text) (s : text) : text :=
  subst repl (chunks r s).

(** The same with a replacement function that reads and writes a state
    (the callback of the image stage appends to a list and prints). *)
Fixpoint subst_st {S : Type} (repl : S -> list text -> S * text) (st : S)
    (l : list chunk) : S * text :=
  match l with
  | [] => (st, [])
  | Plain c :: l' =>
      let '(st', t) := subst_st repl st l' in (st', c :: t)
  | Hit g :: l' =>
      let '(st1, t1) := repl st g in
      let '(st2, t2) := subst_st repl st1 l' in
      (st2, t1 ++ t2)
  end.

Definition re_sub_st {S : Type} (r : regex)
    (repl : S -> list text -> S * text) (st : S) (s : text) : S * text :=
  subst_st repl st (chunks r s).

(** Group [i] of a match, counted from 1 as in [match.group(i)]. *)
Definition group (i : nat) (g : list text) : text := nth (Nat.pred i) g [].

(** The character before the position reached after [s]. *)
Definition lastc (prev : option char) (s : text) : option char :=
  fold_left (fun _ c => Some c) s prev.

(** Patterns that do not look at the character before the position. *)
Fixpoint no_lookbehind (r : regex) : bool :=
  match r with
  | Bol | Bos => false
  | Grp r1 => no_lookbehind r1
  | Cat r1 r2 => no_lookbehind r1 && no_lookbehind r2
  | _ => true
  end.

(** A class fails on the first character of a text, or the text is
    empty. *)
Definition stops (cls : char -> bool) (s : text) : Prop :=
  match s with
  | [] => True
  | c :: _ => cls c = false
  end.

(* ------------------------------------------------------------------ *)
(** ** The file system and the character tables

    What the script reads through [pathlib] and [open]: paths are kept
    abstract, with the operations the script calls on them. *)

Record os_env (path : Type) := {
  path_of : text -> path;               (* Path(s) *)
  is_absolute : path -> bool;           (* p.is_absolute() *)
  parent : path -> path;                (* p.parent *)
  joinpath : path -> text -> path;      (* p / s *)
  resolve : path -> path;               (* p.resolve() *)
  exists_ : path -> bool;               (* p.exists() *)
  name : path -> text;                  (* p.name *)
  read_text : path -> option text;      (* open(p).read(), None: raises *)
  open_rb : path -> bool;               (* open(p, 'rb') succeeds *)
  rglob_md : path -> list path          (* list(p.rglob('*.md')) *)
}.
Arguments path_of {path}.
Arguments is_absolute {path}.
Arguments parent {path}.
Arguments joinpath {path}.
Arguments resolve {path}.
Arguments exists_ {path}.
Arguments name {path}.
Arguments read_text {path}.
Arguments open_rb {path}.
Arguments rglob_md {path}.

(** [p.stem]: the final component without its last suffix; a dot at the
    start or at the end of the name does not begin a suffix. *)
Fixpoint rfind (c : char) (s : text) : option nat :=
  match s with
  | [] => None
  | x :: s' =>
      match rfind c s' with
      | Some i => Some (S i)
      | None => if x =? c then Some O else None
      end
  end.

Definition stem_of_name (nm : text) : text :=
  match rfind (ch ".") nm with
  | Some i =>
      if (Nat.ltb 0 i && Nat.ltb i (List.length nm - 1))%bool then firstn i nm
      else nm
  | None => nm
  end.

Definition stem {path : Type} (os : os_env path) (p : path) : text :=
  stem_of_name (name os p).

(** What the script prints, one constructor for each [print] (a few
    consecutive ones are merged). *)
Inductive msg {path : Type} :=
| MsgMissingConfig (missing : list text)
| MsgImageNotFound (image_path : text)
| MsgUploaded (filename : text)
| MsgUploadFailed (filename : text) (status : Z)
| MsgUploadError (file : path)
| MsgGetFailed (page_id : text) (status : Z)
| MsgGetError (page_id : text)
| MsgSearchFailed (title : text) (status : Z)
| MsgSearchError (title : text)
| MsgCreated (title url page_id : text)
| MsgCreateFailed (title : text) (status : Z)
| MsgCreateError (title : text)
| MsgUpdated (title : text) (from_version to_version : Z) (url : text)
| MsgUpdateFailed (title : text) (status : Z)
| MsgUpdateError (title : text)
| MsgProcessing (file : path)
| MsgReadError
| MsgSkipping (page_id : text)
| MsgFoundExisting (title page_id : text)
| MsgUploading (count : nat)
| MsgTip (page_id : text)
| MsgNoDirectory (docs_dir : text)
| MsgNoFiles (docs_dir : text)
| MsgFoundFiles (count : nat)
| MsgBanner
| MsgConfiguration
| MsgSummary (success failure : nat).
Arguments msg path : clear implicits.

(* ------------------------------------------------------------------ *)
(** ** The converter: [markdown_to_confluence_storage] *)

Section Converter.

Context {path : Type}.

(** The class [\w] of [re] on [str] patterns: letters, digits and the
    underscore. [uni_word] is Python's table for the code points from 128
    on (alphanumeric in Unicode). *)
Variable uni_word : char -> bool.
Variable os : os_env path.

Definition is_word (c : char) : bool :=
  if c <? 128 then
    ((48 <=? c) && (c <=? 57)) || ((65 <=? c) && (c <=? 90))
    || (c =? 95) || ((97 <=? c) && (c <=? 122))
  else uni_word c.

(** [r'!\[(.*?)\]\((.*?)\)'] *)
Definition image_re : regex :=
  seq_re [lits (u "!["); Grp (Rep Lazy 0 dot); lits (u "](");
          Grp (Rep Lazy 0 dot); lits (u ")")].

(** [r'^######\s+(.*?)$'] and the five shorter ones, with
    [re.MULTILINE]; [k] is the number of [#]. *)
Definition hashes (k : nat) : text := repeat (ch "#") k.

Definition heading_re (k : nat) : regex :=
  seq_re [Bol; lits (hashes k); Rep Greedy 1 is_space;
          Grp (Rep Lazy 0 dot); Eol].

(** A text begins with [k] hashes followed by a whitespace character. *)
Definition heading_shape (k : nat) (s : text) : bool :=
  startswith (hashes k) s
  && match skipn k s with
     | c :: _ => is_space c
     | [] => false
     end.

(** [r'\*\*(.*?)\*\*'], [r'__(.*?)__'], [r'\*(.*?)\*'], [r'_(.*?)_'] and
    the inline code pattern: a lazy group between two delimiters. *)
Definition delim_re (d : text) : regex :=
  seq_re [lits d; Grp (Rep Lazy 0 dot); lits d].

(** The pattern of a fenced block, with [re.DOTALL]: three backticks, a
    group of [\w] repeated greedily, a newline, a lazy group of any
    characters and three backticks. *)
Definition code_block_re : regex :=
  seq_re [lits (u "```"); Grp (Rep Greedy 0 is_word); Lit nl;
          Grp (Rep Lazy 0 dot_all); lits (u "```")].

(** [r'^---+$'] with [re.MULTILINE] *)
Definition hr_re : regex :=
  seq_re [Bol; lits (u "--"); Rep Greedy 1 (is_char (ch "-")); Eol].

(** A rule line: three hyphens or more and nothing else. *)
Definition is_rule (s : text) : bool :=
  Nat.leb 3 (List.length s) && forallb (is_char (ch "-")) s.



(** The replacement template [r'<tag>\1</tag>']. *)
Definition wrap (tag : text) (body : text) : text :=
  u "<" ++ tag ++ u ">" ++ body ++ u "</" ++ tag ++ u ">".

Definition wrap1 (tag : text) (g : list text) : text := wrap tag (group 1 g).

Definition heading_tag (k : nat) : text :=
  ch "h" :: match k with
            | 1%nat => u "1" | 2%nat => u "2" | 3%nat => u "3"
            | 4%nat => u "4" | 5%nat => u "5" | _ => u "6"
            end.

(** The state the callback of the image stage works on: the caller's
    list [images_to_upload] ([None] when the argument is [None]) and the
    lines printed. *)
Definition conv_state := (option (list path) * list (msg path))%type.

Definition image_replace (md_file_path : option path) (st : conv_state)
    (g : list text) : conv_state * text :=
  let image_path := group 2 g in
  if startswith (u "http://") image_path
     || startswith (u "https://") image_path
  then (st, u "<ac:image><ri:url ri:value=" ++ [dq] ++ image_path
            ++ [dq] ++ u " /></ac:image>")
  else
    match md_file_path, fst st with
    | Some md, Some images =>
        let image_full_path :=
          if negb (is_absolute os (path_of os image_path))
          then resolve os (joinpath os (parent os md) image_path)
          else path_of os image_path in
        if exists_ os image_full_path then
          ((Some (images ++ [image_full_path]), snd st),
           u "<ac:image><ri:attachment ri:filename=" ++ [dq]
             ++ name os image_full_path ++ [dq] ++ u " /></ac:image>")
        else
          ((fst st, snd st ++ [MsgImageNotFound image_path]),
           u "<p><em>Image not found: " ++ image_path ++ u "</em></p>")
    | _, _ => (st, u "<p><em>Image: " ++ image_path ++ u "</em></p>")
    end.

Definition stage_images (md_file_path : option path) (st : conv_state)
    (content : text) : conv_state * text :=
  re_sub_st image_re (image_replace md_file_path) st content.

Definition heading_sub (k : nat) (content : text) : text :=
  re_sub (heading_re k) (wrap1 (heading_tag k)) content.

Definition stage_headings (content : text) : text :=
  let content := heading_sub 6 content in
  let content := heading_sub 5 content in
  let content := heading_sub 4 content in
  let content := heading_sub 3 content in
  let content := heading_sub 2 content in
  heading_sub 1 content.

Definition stage_bold (content : text) : text :=
  let content := re_sub (delim_re (u "**")) (wrap1 (u "strong")) content in
  re_sub (delim_re (u "__")) (wrap1 (u "strong")) content.

Definition stage_italic (content : text) : text :=
  let content := re_sub (delim_re (u "*")) (wrap1 (u "em")) content in
  re_sub (delim_re (u "_")) (wrap1 (u "em")) content.

Definition code_block_replace (g : list text) : text :=
  let lang := match group 1 g with [] => u "none" | l => l end in
  let code := group 2 g in
  u "<ac:structured-macro ac:name=" ++ [dq] ++ u "code" ++ [dq]
    ++ u "><ac:parameter ac:name=" ++ [dq] ++ u "language"
    ++ [dq] ++ u ">" ++ lang
    ++ u "</ac:parameter><ac:plain-text-body><![CDATA[" ++ code
    ++ u "]]></ac:plain-text-body></ac:structured-macro>".

Definition stage_code_blocks (content : text) : text :=
  re_sub code_block_re code_block_replace content.

Definition stage_inline_code (content : text) : text :=
  re_sub (delim_re (u "`")) (wrap1 (u "code")) content.

(** [l[1:-1]] *)
Definition inner {A : Type} (l : list A) : list A := removelast (tl l).

(** [[cell.strip() for cell in line.split('|')[1:-1]]] *)
Definition cells (line : text) : list text :=
  List.map strip (inner (split (ch "|") line)).

Definition table_row (tag : text) (row : list text) : text :=
  u "<tr>" ++ concat (List.map (wrap tag) row) ++ u "</tr>".

Definition table_html (header : list text) (data_rows : list (list text))
    : text :=
  u "<table><tbody>" ++ table_row (u "th") header
    ++ concat (List.map (table_row (u "td")) data_rows)
    ++ u "</tbody></table>".

Definition convert_table (table_lines : list text) : text :=
  if Nat.ltb (List.length table_lines) 2 then join [nl] table_lines
  else
    let header := cells (nth 0 table_lines []) in
    let data_rows := List.map cells (skipn 2 table_lines) in
    table_html header data_rows.

(** The condition of the loop over the lines:
    ['|' in line and line.strip().startswith('|')] *)
Definition is_table_line (line : text) : bool :=
  contains (ch "|") line && startswith (u "|") (strip line).

(** The loop over the lines, on [converted_lines], [in_table] and
    [table_rows]. *)
Fixpoint table_loop (lines : list text) (converted_lines : list text)
    (in_table : bool) (table_rows : list text)
    : list text * bool * list text :=
  match lines with
  | [] => (converted_lines, in_table, table_rows)
  | line :: lines' =>
      if is_table_line line then
        let table_rows := if in_table then table_rows else [] in
        table_loop lines' converted_lines true (table_rows ++ [line])
      else
        let converted_lines :=
          if in_table then converted_lines ++ [convert_table table_rows]
          else converted_lines in
        table_loop lines' (converted_lines ++ [line]) false
          (if in_table then [] else table_rows)
  end.

Definition stage_tables (content : text) : text :=
  let lines := split nl content in
  let '(converted_lines, in_table, table_rows) :=
    table_loop lines [] false [] in
  let converted_lines :=
    if in_table then converted_lines ++ [convert_table table_rows]
    else converted_lines in
  join [nl] converted_lines.

Definition stage_hr (content : text) : text :=
  re_sub hr_re (fun _ => u "<hr />") content.

Definition format_paragraph (para : text) : text :=
  let para := strip para in
  match para with
  | [] => para
  | _ :: _ => if startswith (u "<") para then para else wrap (u "p") para
  end.

Definition stage_paragraphs (content : text) : text :=
  join [nl] (List.map format_paragraph (split_blank content)).

(** The stages after the image stage; they neither read nor write the
    state. *)
Definition stages_after_images (content : text) : text :=
  stage_paragraphs
    (stage_hr
       (stage_tables
          (stage_inline_code
             (stage_code_blocks
                (stage_italic (stage_bold (stage_headings content))))))).

(** [markdown_to_confluence_storage(md_content, md_file_path, page_id,
    images_to_upload)]: the markup, with the list of images and the
    lines printed. [page_id] is not read by the function. *)
Definition markdown_to_confluence_storage (md_content : text)
    (md_file_path : option path) (page_id : option text)
    (st : conv_state) : conv_state * text :=
  let '(st', content) := stage_images md_file_path st md_content in
  (st', stages_after_images content).

End Converter.

(* ------------------------------------------------------------------ *)
(** ** Front-matter: [parse_frontmatter] *)

Fixpoint eqb_text (a b : text) : bool :=
  match a, b with
  | [], [] => true
  | x :: a', y :: b' => (x =? y) && eqb_text a' b'
  | _, _ => false
  end.

(** The pattern of the front-matter block, with [re.DOTALL] and without
    [re.MULTILINE]: [^---], [\s] repeated, a newline, a lazy group, a
    newline, [---], [\s] repeated, a newline, a greedy group and [$]. *)
Definition frontmatter_re : regex :=
  seq_re [Bos; lits (u "---"); Rep Greedy 0 is_space; Lit nl;
          Grp (Rep Lazy 0 dot_all); Lit nl; lits (u "---");
          Rep Greedy 0 is_space; Lit nl; Grp (Rep Greedy 0 dot_all); Eos].

Definition is_quote (c : char) : bool := (c =? dq) || (c =? ch "'").

(** The body of the loop over the lines of the block. *)
Definition frontmatter_line (frontmatter : gmap text text) (line : text)
    : gmap text text :=
  if contains (ch ":") line then
    let '(key, value) := split_once (ch ":") line in
    (* the comment is removed *)
    let value := strip (hd [] (split (ch "#") value)) in
    <[strip key := strip_by is_quote value]> frontmatter
  else frontmatter.

Definition parse_frontmatter (content : text) : gmap text text * text :=
  match re_match frontmatter_re content with
  | Some (_, g) =>
      let frontmatter_text := group 1 g in
      let body := group 2 g in
      (fold_left frontmatter_line (split nl frontmatter_text) ∅, body)
  | None => (∅, content)
  end.

(* ------------------------------------------------------------------ *)
(** ** The remote wiki

    The requests the script sends and the answers it reads. An answer
    carries the status code and the JSON body, read at the type the
    script expects of it; [RequestException] is an exception raised by
    the transport. *)

Record page := {
  page_id : text;               (* ['id'] *)
  page_title : text;            (* ['title'] *)
  version_number : Z;           (* ['version']['number'] *)
  webui : text                  (* ['_links']['webui'] *)
}.

Record attachment := {
  attachment_id : text;         (* ['id'] *)
  attachment_title : text       (* ['title'] *)
}.

Inductive request {path : Type} :=
| GetContent (id : text)
| SearchContent (space_key title : text)
| PostContent (space_key title value : text) (ancestor : option text)
| PutContent (id : text) (number : Z) (title value : text)
| GetAttachments (id : text)
| PostAttachment (id filename : text) (file : path)
| PostAttachmentData (id att_id filename : text) (file : path).
Arguments request path : clear implicits.

Inductive response (A : Type) :=
| Response (status_code : Z) (json : A)
| RequestException.
Arguments Response {A}.
Arguments RequestException {A}.

Record remote (path server : Type) := {
  get_content : server -> text -> response page * server;
  search_content : server -> text -> text -> response (list page) * server;
  post_content :
    server -> text -> text -> text -> option text -> response page * server;
  put_content : server -> text -> Z -> text -> text -> response page * server;
  get_attachments : server -> text -> response (list attachment) * server;
  post_attachment : server -> text -> text -> path -> response unit * server;
  post_attachment_data :
    server -> text -> text -> text -> path -> response unit * server
}.
Arguments get_content {path server}.
Arguments search_content {path server}.
Arguments post_content {path server}.
Arguments put_content {path server}.
Arguments get_attachments {path server}.
Arguments post_attachment {path server}.
Arguments post_attachment_data {path server}.

(** The settings read from the environment when the module is loaded. *)
Record config := {
  BASE_URL : text;
  USERNAME : text;
  API_TOKEN : text;
  PARENT_ID : text;
  SPACE_KEY : text
}.

Definition load_config (environ : gmap text text) : config :=
  {| BASE_URL :=
       rstrip_by (is_char (ch "/"))
         (default [] (environ !! u "CONFLUENCE_BASE_URL"));
     USERNAME := default [] (environ !! u "CONFLUENCE_USER_NAME");
     API_TOKEN := default [] (environ !! u "CONFLUENCE_API_TOKEN");
     PARENT_ID := default [] (environ !! u "CONFLUENCE_PARENT_ID");
     SPACE_KEY := default (u "DOCS") (environ !! u "CONFLUENCE_SPACE_KEY") |}.

(** [[k for k, v in required_vars.items() if not v]] *)
Definition missing_config (cfg : config) : list text :=
  (if BASE_URL cfg is [] then [u "CONFLUENCE_BASE_URL"] else [])
  ++ (if USERNAME cfg is [] then [u "CONFLUENCE_USER_NAME"] else [])
  ++ (if API_TOKEN cfg is [] then [u "CONFLUENCE_API_TOKEN"] else []).

(* ------------------------------------------------------------------ *)
(** ** The reconciler *)

Section Sync.

Context {path server : Type}.
Variable uni_word : char -> bool.
Variable os : os_env path.
Variable api : remote path server.
Variable cfg : config.

(** The state of a run: the remote, the requests sent so far and the
    lines printed so far. *)
Record world := {
  srv : server;
  calls : list (request path);
  out : list (msg path)
}.

Definition M (A : Type) : Type := world -> A * world.

Definition ret {A : Type} (a : A) : M A := fun w => (a, w).

Definition bind {A B : Type} (c : M A) (k : A -> M B) : M B :=
  fun w => let '(a, w') := c w in k a w'.

Notation "'let*' p ':=' c 'in' k" := (bind c (fun p => k))
  (at level 10, p pattern, c at level 100, k at level 200, only parsing).
Notation "c ;; k" := (bind c (fun _ => k))
  (at level 100, k at level 200, right associativity, only parsing).

Definition print (m : msg path) : M unit :=
  fun w => (tt, {| srv := srv w; calls := calls w; out := out w ++ [m] |}).

Definition prints (l : list (msg path)) : M unit :=
  fun w => (tt, {| srv := srv w; calls := calls w; out := out w ++ l |}).

(** Send a request: it is recorded and the remote answers. *)
Definition send {A : Type} (rq : request path)
    (f : server -> response A * server) : M (response A) :=
  fun w =>
    let '(r, s') := f (srv w) in
    (r, {| srv := s'; calls := calls w ++ [rq]; out := out w |}).

Definition get_page_by_id (id : text) : M (option page) :=
  let* r := send (GetContent id) (fun s => get_content api s id) in
  match r with
  | Response status pg =>
      if (status =? 200)%Z then ret (Some pg)
      else if (status =? 404)%Z then ret None
      else print (MsgGetFailed id status) ;; ret None
  | RequestException => print (MsgGetError id) ;; ret None
  end.

(** The first page of the results whose title is the title asked for. *)
Definition search_page_by_title (space_key title : text) : M (option page) :=
  let* r := send (SearchContent space_key title)
         (fun s => search_content api s space_key title) in
  match r with
  | Response status results =>
      if (status =? 200)%Z then
        ret (List.find (fun pg => eqb_text (page_title pg) title) results)
      else print (MsgSearchFailed title status) ;; ret None
  | RequestException => print (MsgSearchError title) ;; ret None
  end.

(** [if parent_id:] the ancestor is sent when the text is not empty. *)
Definition ancestor_of (parent_id : text) : option text :=
  match parent_id with
  | [] => None
  | _ :: _ => Some parent_id
  end.

Definition create_page (space_key title content parent_id : text)
    : M (option page) :=
  let* r := send (PostContent space_key title content (ancestor_of parent_id))
         (fun s => post_content api s space_key title content
                     (ancestor_of parent_id)) in
  match r with
  | Response status page_data =>
      if (status =? 200)%Z then
        print (MsgCreated title (BASE_URL cfg ++ webui page_data)
                 (page_id page_data)) ;;
        ret (Some page_data)
      else print (MsgCreateFailed title status) ;; ret None
  | RequestException => print (MsgCreateError title) ;; ret None
  end.

Definition update_page (id title content : text) (version : Z)
    : M (option page) :=
  let* r := send (PutContent id (version + 1) title content)
         (fun s => put_content api s id (version + 1) title content) in
  match r with
  | Response status page_data =>
      if (status =? 200)%Z then
        print (MsgUpdated title version (version + 1)
                 (BASE_URL cfg ++ webui page_data)) ;;
        ret (Some page_data)
      else print (MsgUpdateFailed title status) ;; ret None
  | RequestException => print (MsgUpdateError title) ;; ret None
  end.

Definition upload_attachment (id : text) (file_path : path)
    : M (option text) :=
  let* r := send (GetAttachments id) (fun s => get_attachments api s id) in
  match r with
  | RequestException => print (MsgUploadError file_path) ;; ret None
  | Response status attachments =>
      let filename := name os file_path in
      let existing_attachment :=
        if (status =? 200)%Z then
          List.find (fun a => eqb_text (attachment_title a) filename)
            attachments
        else None in
      if open_rb os file_path then
        let* r := match existing_attachment with
             | Some a =>
                 send (PostAttachmentData id (attachment_id a) filename
                         file_path)
                   (fun s => post_attachment_data api s id (attachment_id a)
                               filename file_path)
             | None =>
                 send (PostAttachment id filename file_path)
                   (fun s => post_attachment api s id filename file_path)
             end in
        match r with
        | Response status _ =>
            if (status =? 200)%Z || (status =? 201)%Z then
              print (MsgUploaded filename) ;; ret (Some filename)
            else print (MsgUploadFailed filename status) ;; ret None
        | RequestException => print (MsgUploadError file_path) ;; ret None
        end
      else print (MsgUploadError file_path) ;; ret None
  end.

(** [for image_path in images_to_upload: upload_attachment(...)] *)
Fixpoint upload_all (id : text) (images : list path) : M unit :=
  match images with
  | [] => ret tt
  | image_path :: images' =>
      upload_attachment id image_path ;; upload_all id images'
  end.

(** A call of the converter with a list [images_to_upload] that is empty
    at the call: the markup and the list after the call; what the
    converter prints goes to the output. *)
Definition convert (body : text) (md_file : path) (id : option text)
    : M (text * list path) :=
  let '((images, printed), content) :=
    markdown_to_confluence_storage uni_word os body (Some md_file) id
      (Some [], []) in
  prints printed ;; ret (content, default [] images).

(** The update of a page that exists, shared by the two branches that
    find one: conversion again when there are images, the update, the
    uploads. *)
Definition update_existing (md_file : path) (body title : text)
    (id : text) (existing_page : page) (confluence_content : text)
    (images_to_upload : list path) : M bool :=
  let* (confluence_content, images_to_upload) :=
     match images_to_upload with
     | [] => ret (confluence_content, images_to_upload)
     | _ :: _ => convert body md_file (Some id)
     end in
  let* result := update_page id title confluence_content
              (version_number existing_page) in
  match result, images_to_upload with
  | Some _, _ :: _ =>
      print (MsgUploading (List.length images_to_upload)) ;;
      upload_all id images_to_upload
  | _, _ => ret tt
  end ;;
  ret (bool_decide (result <> None)).

Definition process_markdown_file (md_file : path) : M bool :=
  print (MsgProcessing md_file) ;;
  match read_text os md_file with
  | None => print MsgReadError ;; ret false
  | Some content =>
      let '(frontmatter, body) := parse_frontmatter content in
      let title :=
        default (stem os md_file) (frontmatter !! u "confluence_title") in
      let* (confluence_content, images_to_upload) :=
         convert body md_file None in
      match frontmatter !! u "confluence_page_id" with
      | Some id =>
          let* existing_page := get_page_by_id id in
          match existing_page with
          | Some existing_page =>
              update_existing md_file body title id existing_page
                confluence_content images_to_upload
          | None => print (MsgSkipping id) ;; ret false
          end
      | None =>
          let space_key :=
            default (SPACE_KEY cfg)
              (frontmatter !! u "confluence_space_key") in
          let parent_id :=
            default (PARENT_ID cfg)
              (frontmatter !! u "confluence_parent_id") in
          let* existing_page := search_page_by_title space_key title in
          match existing_page with
          | Some existing_page =>
              let id := page_id existing_page in
              print (MsgFoundExisting title id) ;;
              update_existing md_file body title id existing_page
                confluence_content images_to_upload
          | None =>
              let* result := create_page space_key title confluence_content
                          parent_id in
              match result with
              | Some created =>
                  let id := page_id created in
                  match images_to_upload with
                  | _ :: _ =>
                      print (MsgUploading (List.length images_to_upload)) ;;
                      upload_all id images_to_upload ;;
                      let* (confluence_content, _) :=
                         convert body md_file (Some id) in
                      update_page id title confluence_content
                        (version_number created) ;;
                      ret tt
                  | [] => ret tt
                  end ;;
                  print (MsgTip (page_id created)) ;;
                  ret true
              | None => ret false
              end
          end
      end
  end.

(** The loop of [process_markdown_files] on the two counters. *)
Fixpoint count_files (md_files : list path) (success_count failure_count : nat)
    : M (nat * nat) :=
  match md_files with
  | [] => ret (success_count, failure_count)
  | md_file :: md_files' =>
      let* ok := process_markdown_file md_file in
      if ok then count_files md_files' (S success_count) failure_count
      else count_files md_files' success_count (S failure_count)
  end.

Definition process_markdown_files (docs_dir : text) : M (nat * nat) :=
  let docs_path := path_of os docs_dir in
  if negb (exists_ os docs_path) then
    print (MsgNoDirectory docs_dir) ;; ret (O, O)
  else
    match rglob_md os docs_path with
    | [] => print (MsgNoFiles docs_dir) ;; ret (O, O)
    | md_files =>
        print (MsgFoundFiles (List.length md_files)) ;;
        count_files md_files O O
    end.

(** [main()]: the value is the exit status of the process. *)
Definition main : M Z :=
  print MsgBanner ;;
  match missing_config cfg with
  | (_ :: _) as missing => print (MsgMissingConfig missing) ;; ret 1%Z
  | [] =>
      print MsgConfiguration ;;
      let* (success_count, failure_count) :=
        process_markdown_files (u "docs") in
      print (MsgSummary success_count failure_count) ;;
      if Nat.ltb 0 failure_count then ret 1%Z else ret 0%Z
  end.

End Sync.

(* ------------------------------------------------------------------ *)
(** ** The columns of a table row, in the words of the specification

    The pieces between the pipes, each stripped, without the first and
    without the last piece when that piece is empty. [cells] above is what
    the script computes. *)

Definition trim_empty_ends (l : list text) : list text :=
  let l := match l with [] :: l' => l' | _ => l end in
  match rev l with
  | [] :: r => rev r
  | _ => l
  end.

Definition spec_columns (line : text) : nat :=
  List.length (trim_empty_ends (List.map strip (split (ch "|") line))).

(* ------------------------------------------------------------------ *)
(** ** Vocabulary for the requests of a run *)

Definition is_attachment_request {path : Type} (rq : request path) : Prop :=
  match rq with
  | GetAttachments _ | PostAttachment _ _ _ | PostAttachmentData _ _ _ _ =>
      True
  | _ => False
  end.

(** The requests of the upload of one of [files] to the page [id]: the
    listing of the attachments of that page, and the posts of one of the
    files, under its name, to that page. *)
Definition is_upload_of {path : Type} (os : os_env path) (id : text)
    (files : list path) (rq : request path) : Prop :=
  match rq with
  | GetAttachments id' => id' = id
  | PostAttachment id' filename file_path
  | PostAttachmentData id' _ filename file_path =>
      id' = id /\ In file_path files /\ filename = name os file_path
  | _ => False
  end.

Definition is_create {path : Type} (rq : request path) : Prop :=
  match rq with
  | PostContent _ _ _ _ => True
  | _ => False
  end.

(** The title a request carries is [title], when it carries one. *)
Definition titled {path : Type} (title : text) (rq : request path) : Prop :=
  match rq with
  | SearchContent _ t | PostContent _ t _ _ | PutContent _ _ t _ => t = title
  | _ => True
  end.

(** [sends P c]: whatever the state, the requests [c] adds all satisfy
    [P]. *)
Definition sends {path server A : Type} (P : request path -> Prop)
    (c : M (path := path) (server := server) A) : Prop :=
  forall w, exists new, calls (snd (c w)) = calls w ++ new /\ Forall P new.

(** The page a title search settles on: the first exact match of a 200
    answer. *)
Definition search_hit (title : text) (r : response (list page))
    : option page :=
  match r with
  | Response status results =>
      if (status =? 200)%Z then
        List.find (fun pg => eqb_text (page_title pg) title) results
      else None
  | RequestException => None
  end.

(** The page of an answer to a lookup, a creation or an update: the body
    of a 200 answer. *)
Definition answered_page (r : response page) : option page :=
  match r with
  | Response status pg => if (status =? 200)%Z then Some pg else None
  | RequestException => None
  end.

(** The attachment a listing holds under a file name: the first one of
    a 200 answer. *)
Definition listed_attachment (filename : text)
    (r : response (list attachment)) : option attachment :=
  match r with
  | Response status attachments =>
      if (status =? 200)%Z then
        List.find (fun a => eqb_text (attachment_title a) filename)
          attachments
      else None
  | RequestException => None
  end.

(* ------------------------------------------------------------------ *)
(** ** A small instance

    One markdown file [docs/intro.md] in a file system that holds
    nothing else, and a remote that keeps its pages in a list. Paths are
    their texts. *)

Module Demo.

Definition intro_body : text := u "# Hello" ++ [nl; nl] ++ u "World".

Definition intro_file : text :=
  u "---" ++ [nl] ++ u "confluence_title: " ++ [dq] ++ u "Intro" ++ [dq]
    ++ [nl] ++ u "---" ++ [nl] ++ intro_body.

Definition pinned_file : text :=
  u "---" ++ [nl] ++ u "confluence_page_id: 42" ++ [nl] ++ u "---" ++ [nl]
    ++ intro_body.

Definition plain_file : text := intro_body.

Definition issue_file : text :=
  u "---" ++ [nl] ++ u "confluence_title: " ++ [dq] ++ u "Issue #1" ++ [dq]
    ++ [nl] ++ u "---" ++ [nl] ++ intro_body.

Definition files : list (text * text) :=
  [(u "docs/intro.md", intro_file);
   (u "docs/pinned.md", pinned_file);
   (u "docs/plain.md", plain_file)].

Definition lookup_file (p : text) : option text :=
  option_map snd (List.find (fun f => eqb_text (fst f) p) files).

Definition basename (p : text) : text := List.last (split (ch "/") p) [].

Definition dirname (p : text) : text :=
  join (u "/") (removelast (split (ch "/") p)).

Definition os : os_env text :=
  {| path_of := fun s => s;
     is_absolute := startswith (u "/");
     parent := dirname;
     joinpath := fun p s => p ++ u "/" ++ s;
     resolve := fun p => p;
     exists_ := fun p =>
       eqb_text p (u "docs") || bool_decide (lookup_file p <> None);
     name := basename;
     read_text := lookup_file;
     open_rb := fun p => bool_decide (lookup_file p <> None);
     rglob_md := fun p =>
       if eqb_text p (u "docs") then [u "docs/intro.md"] else [] |}.

Definition no_uni_word (_ : char) : bool := false.

Definition find_page (pages : list page) (id : text) : option page :=
  List.find (fun pg => eqb_text (page_id pg) id) pages.

Definition new_page (title : text) : page :=
  {| page_id := u "1"; page_title := title; version_number := 1;
     webui := u "/pages/1" |}.

Definition dummy_page : page := new_page [].

(** The remote: unknown identifiers answer 404, a search answers the
    stored pages with that title, writes answer 200. *)
Definition api : remote text (list page) :=
  {| get_content := fun pages id =>
       match find_page pages id with
       | Some pg => (Response 200 pg, pages)
       | None => (Response 404 dummy_page, pages)
       end;
     search_content := fun pages _ title =>
       (Response 200
          (List.filter (fun pg => eqb_text (page_title pg) title) pages),
        pages);
     post_content := fun pages _ title _ _ =>
       (Response 200 (new_page title), new_page title :: pages);
     put_content := fun pages id number title _ =>
       let pg := {| page_id := id; page_title := title;
                    version_number := number; webui := u "/pages/" ++ id |} in
       (Response 200 pg, pg :: pages);
     get_attachments := fun pages _ => (Response 200 [], pages);
     post_attachment := fun pages _ _ _ => (Response 200 tt, pages);
     post_attachment_data := fun pages _ _ _ _ => (Response 200 tt, pages) |}.

Definition cfg : config :=
  load_config
    (<[u "CONFLUENCE_BASE_URL" := u "https://wiki.example/"]>
       (<[u "CONFLUENCE_USER_NAME" := u "bot"]>
          (<[u "CONFLUENCE_API_TOKEN" := u "secret"]> ∅))).

Definition world0 (pages : list page) : world (path := text) :=
  {| srv := pages; calls := []; out := [] |}.

Definition page7 : page :=
  {| page_id := u "7"; page_title := u "plain"; version_number := 3;
     webui := u "/pages/7" |}.

Definition page42 : page :=
  {| page_id := u "42"; page_title := u "Pinned"; version_number := 5;
     webui := u "/pages/42" |}.

End Demo.

(* ------------------------------------------------------------------ *)
(** ** The copy under [scripts/]

    [scripts/sync_to_confluence.py] has the same [parse_frontmatter],
    [convert_table], [get_page_by_id], [create_page], [update_page],
    [process_markdown_files] and [main]. Its converter has no image
    stage and takes the text alone, and its [process_markdown_file]
    neither searches by title nor uploads. *)

Module Scripts.

Section Sync.

Context {path server : Type}.
Variable uni_word : char -> bool.
Variable os : os_env path.
Variable api : remote path server.
Variable cfg : config.

Notation "'let*' p ':=' c 'in' k" := (bind c (fun p => k))
  (at level 10, p pattern, c at level 100, k at level 200, only parsing).
Notation "c ;; k" := (bind c (fun _ => k))
  (at level 100, k at level 200, right associativity, only parsing).

(** [markdown_to_confluence_storage(md_content)] *)
Definition markdown_to_confluence_storage (md_content : text) : text :=
  stage_paragraphs
    (stage_hr
       (stage_tables
          (stage_inline_code
             (stage_code_blocks uni_word
                (stage_italic (stage_bold (stage_headings md_content))))))).

Definition process_markdown_file (md_file : path)
    : M (path := path) (server := server) bool :=
  print (MsgProcessing md_file) ;;
  match read_text os md_file with
  | None => print MsgReadError ;; ret false
  | Some content =>
      let '(frontmatter, body) := parse_frontmatter content in
      let title :=
        default (stem os md_file) (frontmatter !! u "confluence_title") in
      let confluence_content := markdown_to_confluence_storage body in
      match frontmatter !! u "confluence_page_id" with
      | Some id =>
          let* existing_page := get_page_by_id api id in
          match existing_page with
          | Some existing_page =>
              let* result :=
                update_page api cfg id title confluence_content
                  (version_number existing_page) in
              ret (bool_decide (result <> None))
          | None => print (MsgSkipping id) ;; ret false
          end
      | None =>
          let space_key :=
            default (SPACE_KEY cfg)
              (frontmatter !! u "confluence_space_key") in
          let parent_id :=
            default (PARENT_ID cfg)
              (frontmatter !! u "confluence_parent_id") in
          let* result :=
            create_page api cfg space_key title confluence_content
              parent_id in
          match result with
          | Some created => print (MsgTip (page_id created)) ;; ret tt
          | None => ret tt
          end ;;
          ret (bool_decide (result <> None))
      end
  end.

End Sync.

End Scripts.

(* ------------------------------------------------------------------ *)

(** ** A second setting: a page with a picture, a remote that stops
    answering

    The directory holds a page that shows a picture beside it, the
    picture, and a page pinned to an identifier. The remote answers 200
    to as many requests as its state says and raises afterwards; the page
    it has under every identifier is at version 5, and every page holds
    one attachment, [logo.png]. *)

Module Album.

Definition picture_file : text := u "![logo](logo.png)".

Definition files : list (text * text) :=
  [(u "docs/picture.md", picture_file);
   (u "docs/logo.png", u "PNG");
   (u "docs/pinned.md", Demo.pinned_file)].

Definition lookup_file (p : text) : option text :=
  option_map snd (List.find (fun f => eqb_text (fst f) p) files).

Definition os : os_env text :=
  {| path_of := fun s => s;
     is_absolute := startswith (u "/");
     parent := Demo.dirname;
     joinpath := fun p s => p ++ u "/" ++ s;
     resolve := fun p => p;
     exists_ := fun p =>
       eqb_text p (u "docs") || bool_decide (lookup_file p <> None);
     name := Demo.basename;
     read_text := lookup_file;
     open_rb := fun p => bool_decide (lookup_file p <> None);
     rglob_md := fun p =>
       if eqb_text p (u "docs")
       then [u "docs/picture.md"; u "docs/pinned.md"] else [] |}.

(** A directory [docs] whose markdown files cannot be read. *)
Definition locked : os_env text :=
  {| path_of := path_of os; is_absolute := is_absolute os;
     parent := parent os; joinpath := joinpath os; resolve := resolve os;
     exists_ := exists_ os; name := name os;
     read_text := fun _ => None; open_rb := fun _ => false;
     rglob_md := rglob_md os |}.

(** No directory [docs]. *)
Definition bare : os_env text :=
  {| path_of := path_of os; is_absolute := is_absolute os;
     parent := parent os; joinpath := joinpath os; resolve := resolve os;
     exists_ := fun _ => false; name := name os;
     read_text := fun _ => None; open_rb := fun _ => false;
     rglob_md := fun _ => [] |}.

Definition answer {A : Type} (a : A) (left : nat) : response A * nat :=
  match left with
  | O => (RequestException, O)
  | S left' => (Response 200 a, left')
  end.

Definition stored_page (id title : text) (number : Z) : page :=
  {| page_id := id; page_title := title; version_number := number;
     webui := u "/pages/" ++ id |}.

Definition logo : attachment :=
  {| attachment_id := u "att9"; attachment_title := u "logo.png" |}.

Definition api : remote text nat :=
  {| get_content := fun left id => answer (stored_page id (u "Pinned") 5) left;
     search_content := fun left _ _ => answer [] left;
     post_content := fun left _ title _ _ =>
       answer (stored_page (u "1") title 1) left;
     put_content := fun left id number title _ =>
       answer (stored_page id title number) left;
     get_attachments := fun left _ => answer [logo] left;
     post_attachment := fun left _ _ _ => answer tt left;
     post_attachment_data := fun left _ _ _ _ => answer tt left |}.

(** Settings that name a parent page. *)
Definition cfg : config :=
  load_config
    (<[u "CONFLUENCE_BASE_URL" := u "https://wiki.example/"]>
       (<[u "CONFLUENCE_USER_NAME" := u "bot"]>
          (<[u "CONFLUENCE_API_TOKEN" := u "secret"]>
             (<[u "CONFLUENCE_PARENT_ID" := u "12"]> ∅)))).

(** The world in which the remote still answers [left] requests. *)
Definition world0 (left : nat) : world (path := text) :=
  {| srv := left; calls := []; out := [] |}.

End Album.

(* ------------------------------------------------------------------ *)

(** * Properties *)

Lemma eqb_text_eq (a b : text) : eqb_text a b = true <-> a = b.
Proof.
  revert b; induction a as [|x a IH]; intros [|y b]; simpl; split;
    try congruence; try reflexivity.
  - intros H. apply andb_prop in H as [Hx Hab].
    apply N.eqb_eq in Hx. apply IH in Hab. congruence.
  - intros H. injection H as -> ->. rewrite N.eqb_refl. simpl.
    apply IH. reflexivity.
Qed.

Lemma eqb_text_refl (a : text) : eqb_text a a = true.
Proof. apply eqb_text_eq. reflexivity. Qed.


Lemma find_titled_some (title : text) (results : list page) (pg : page) :
  List.find (fun pg => eqb_text (page_title pg) title) results = Some pg ->
  page_title pg = title /\ In pg results.
Proof.
  intros H. apply List.find_some in H as [Hin E].
  apply eqb_text_eq in E. auto.
Qed.

(** ** Texts: membership, splitting, stripping *)

Lemma contains_app (c : char) (a b : text) :
  contains c (a ++ b) = contains c a || contains c b.
Proof. unfold contains. apply existsb_app. Qed.

Lemma contains_cons (c x : char) (s : text) :
  contains c (x :: s) = (c =? x) || contains c s.
Proof. reflexivity. Qed.

Lemma contains_rev (c : char) (s : text) :
  contains c (rev s) = contains c s.
Proof.
  induction s as [|x s IH]; [reflexivity|].
  simpl rev. rewrite contains_app, IH, contains_cons. simpl.
  rewrite orb_false_r. apply orb_comm.
Qed.

Lemma contains_lstrip_by (p : char -> bool) (c : char) (s : text) :
  contains c s = false -> contains c (lstrip_by p s) = false.
Proof.
  induction s as [|x s IH]; [reflexivity|].
  rewrite contains_cons. intros H. apply orb_false_elim in H as [Hx Hs].
  simpl. destruct (p x); [auto|].
  rewrite contains_cons, Hx, Hs. reflexivity.
Qed.

Lemma contains_strip_by (p : char -> bool) (c : char) (s : text) :
  contains c s = false -> contains c (strip_by p s) = false.
Proof.
  intros H. unfold strip_by, rstrip_by.
  rewrite contains_rev. apply contains_lstrip_by.
  rewrite contains_rev. apply contains_lstrip_by. exact H.
Qed.

Lemma split_once_at (sep : char) (a b : text) :
  contains sep a = false -> split_once sep (a ++ sep :: b) = (a, b).
Proof.
  induction a as [|x a IH]; intros H; simpl.
  - rewrite N.eqb_refl. reflexivity.
  - rewrite contains_cons in H. apply orb_false_elim in H as [Hx Ha].
    rewrite N.eqb_sym, Hx, (IH Ha). reflexivity.
Qed.

Lemma split_nonempty (sep : char) (s : text) : split sep s <> [].
Proof.
  destruct s as [|x s]; simpl; [discriminate|].
  destruct (x =? sep); [discriminate|].
  destruct (split sep s); discriminate.
Qed.

Lemma split_at (sep : char) (a b : text) :
  contains sep a = false -> split sep (a ++ sep :: b) = a :: split sep b.
Proof.
  induction a as [|x a IH]; intros H; simpl.
  - rewrite N.eqb_refl. reflexivity.
  - rewrite contains_cons in H. apply orb_false_elim in H as [Hx Ha].
    rewrite N.eqb_sym, Hx, (IH Ha). reflexivity.
Qed.

Lemma split_none (sep : char) (a : text) :
  contains sep a = false -> split sep a = [a].
Proof.
  induction a as [|x a IH]; intros H; simpl; [reflexivity|].
  rewrite contains_cons in H. apply orb_false_elim in H as [Hx Ha].
  rewrite N.eqb_sym, Hx, (IH Ha). reflexivity.
Qed.

Lemma split_length (sep : char) (s : text) :
  List.length (split sep s) = S (occurrences sep s).
Proof.
  unfold occurrences. induction s as [|x s IH]; [reflexivity|].
  simpl. rewrite (N.eqb_sym sep x). destruct (x =? sep); simpl.
  - rewrite IH. reflexivity.
  - destruct (split sep s) eqn:E; [destruct (split_nonempty _ _ E)|].
    simpl in *. exact IH.
Qed.

Lemma removelast_length {A : Type} (l : list A) :
  List.length (removelast l) = (List.length l - 1)%nat.
Proof.
  induction l as [|x [|y l] IH]; try reflexivity.
  change (removelast (x :: y :: l)) with (x :: removelast (y :: l)).
  simpl List.length in *. rewrite IH. lia.
Qed.

Lemma inner_length {A : Type} (l : list A) :
  List.length (inner l) = (List.length l - 2)%nat.
Proof.
  unfold inner. rewrite removelast_length.
  destruct l; simpl; lia.
Qed.

Lemma cells_length (line : text) :
  List.length (cells line) = (occurrences (ch "|") line - 1)%nat.
Proof.
  unfold cells. rewrite length_map, inner_length, split_length. lia.
Qed.

(** ** Front-matter lines *)

Lemma frontmatter_line_value (frontmatter : gmap text text)
    (key a : text) :
  contains (ch ":") key = false ->
  contains (ch "#") a = false ->
  (forall b,
     frontmatter_line frontmatter (key ++ ch ":" :: a ++ ch "#" :: b)
     = <[strip key := strip_by is_quote (strip a)]> frontmatter)
  /\ frontmatter_line frontmatter (key ++ ch ":" :: a)
     = <[strip key := strip_by is_quote (strip a)]> frontmatter.
Proof.
  intros Hkey Ha. split; [intros b|]; unfold frontmatter_line.
  - rewrite contains_app, contains_cons, N.eqb_refl, orb_true_r.
    rewrite (split_once_at _ _ _ Hkey), (split_at _ _ _ Ha). reflexivity.
  - rewrite contains_app, contains_cons, N.eqb_refl, orb_true_r.
    rewrite (split_once_at _ _ _ Hkey), (split_none _ _ Ha). reflexivity.
Qed.

(** C10: in a front-matter line [key: a#b] everything from the first [#]
    of the value on is dropped before the quotes are stripped: the line
    stores what the line cut at the [#] stores, the stored value holds no
    [#], and a quoted value is cut as well: the title written
    ["Issue #1"] is read as [Issue]. *)
Theorem hash_truncates_frontmatter_value (frontmatter : gmap text text)
    (key a b : text) :
  contains (ch ":") key = false ->
  contains (ch "#") a = false ->
  frontmatter_line frontmatter (key ++ ch ":" :: a ++ ch "#" :: b)
  = frontmatter_line frontmatter (key ++ ch ":" :: a)
  /\ frontmatter_line frontmatter (key ++ ch ":" :: a ++ ch "#" :: b)
       !! strip key
     = Some (strip_by is_quote (strip a))
  /\ contains (ch "#") (strip_by is_quote (strip a)) = false
  /\ fst (parse_frontmatter Demo.issue_file) !! u "confluence_title"
     = Some (u "Issue").
Proof.
  intros Hkey Ha.
  destruct (frontmatter_line_value frontmatter key a Hkey Ha) as [Hcut Hfull].
  rewrite Hcut, Hfull. split; [reflexivity|].
  split; [apply lookup_insert_eq|].
  split; [|vm_compute; reflexivity].
  apply contains_strip_by, contains_strip_by. exact Ha.
Qed.

(** ** Tables *)

Lemma split_three_lines (h s d : text) :
  contains nl h = false -> contains nl s = false -> contains nl d = false ->
  split nl (h ++ nl :: s ++ nl :: d) = [h; s; d].
Proof.
  intros Hh Hs Hd.
  rewrite (split_at _ _ _ Hh), (split_at _ _ _ Hs), (split_none _ _ Hd).
  reflexivity.
Qed.

(** C7, as amended: a block of three table lines (header, separator, one
    data row) becomes a table of one header row and one data row; the
    number of cells of a row is the number of pipes of its line minus
    one, the pieces before the first pipe and after the last one being
    dropped whatever they hold; a block of one line is left as it is. *)
Theorem three_line_table (h s d : text) :
  is_table_line h = true -> is_table_line s = true ->
  is_table_line d = true ->
  contains nl h = false -> contains nl s = false -> contains nl d = false ->
  stage_tables (h ++ nl :: s ++ nl :: d)
  = u "<table><tbody>" ++ table_row (u "th") (cells h)
      ++ table_row (u "td") (cells d) ++ u "</tbody></table>"
  /\ List.length (cells h) = (occurrences (ch "|") h - 1)%nat
  /\ List.length (cells d) = (occurrences (ch "|") d - 1)%nat
  /\ stage_tables h = h.
Proof.
  intros Th Ts Td Hh Hs Hd. split; [|split; [|split]].
  - unfold stage_tables. rewrite (split_three_lines h s d Hh Hs Hd).
    cbn [table_loop]. rewrite Th, Ts, Td. cbn [app join].
    unfold convert_table. cbn [List.length Nat.ltb Nat.leb nth skipn List.map].
    unfold table_html. cbn [List.map concat]. rewrite app_nil_r.
    reflexivity.
  - apply cells_length.
  - apply cells_length.
  - unfold stage_tables. rewrite (split_none _ _ Hh).
    cbn [table_loop]. rewrite Th. reflexivity.
Qed.

(** C7, as stated, fails on a row without a closing pipe: the row has
    two columns and the table gets one cell for it. *)
Lemma three_line_table_counterexample :
  stage_tables
    (u "| a | b" ++ nl :: u "|---|---|" ++ nl :: u "| 1 | 2")
  = u "<table><tbody><tr><th>a</th></tr><tr><td>1</td></tr></tbody></table>"
  /\ List.length (cells (u "| a | b")) = 1%nat
  /\ spec_columns (u "| a | b") = 2%nat
  /\ List.length (cells (u "| a | b")) <> spec_columns (u "| a | b").
Proof. vm_compute. repeat split; discriminate. Qed.

(** ** The matcher *)


Lemma seq_re_cons (r : regex) (l : list regex) (n : nat)
    (prev : option char) (suf : text) (cs : list text)
    (k : nat -> option char -> text -> list text -> option found) :
  run (seq_re (r :: l)) n prev suf cs k
  = run r n prev suf cs
      (fun n' p' s' cs' => run (seq_re l) n' p' s' cs' k).
Proof. destruct l; reflexivity. Qed.

Lemma run_lits (s : text) (n : nat) (prev : option char) (rest : text)
    (cs : list text)
    (k : nat -> option char -> text -> list text -> option found) :
  run (lits s) n prev (s ++ rest) cs k
  = k (n + List.length s)%nat (lastc prev s) rest cs.
Proof.
  unfold lits. revert n prev.
  induction s as [|x s IH]; intros n prev.
  - simpl. rewrite Nat.add_0_r. reflexivity.
  - change (List.map Lit (x :: s)) with (Lit x :: List.map Lit s).
    rewrite seq_re_cons. simpl run at 1. simpl app. rewrite N.eqb_refl.
    rewrite IH. simpl. rewrite Nat.add_succ_r. reflexivity.
Qed.

Lemma run_lits_fail (s : text) (n : nat) (prev : option char) (suf : text)
    (cs : list text)
    (k : nat -> option char -> text -> list text -> option found) :
  startswith s suf = false -> run (lits s) n prev suf cs k = None.
Proof.
  unfold lits. revert n prev suf.
  induction s as [|x s IH]; intros n prev suf H; [discriminate|].
  change (List.map Lit (x :: s)) with (Lit x :: List.map Lit s).
  rewrite seq_re_cons. destruct suf as [|y suf]; [reflexivity|].
  simpl in H. simpl run at 1. rewrite (N.eqb_sym y x).
  destruct (x =? y); [|reflexivity].
  simpl in H. apply IH. exact H.
Qed.

Lemma rep_greedy_take (cls : char -> bool) (ws : text) :
  forall (lo n : nat) (prev : option char) (rest : text)
    (k : nat -> option char -> text -> option found) (r : found),
  forallb cls ws = true ->
  stops cls rest ->
  (lo <= List.length ws)%nat ->
  k (n + List.length ws)%nat (lastc prev ws) rest = Some r ->
  rep_greedy cls lo n prev (ws ++ rest) k = Some r.
Proof.
  induction ws as [|c ws IH]; intros lo n prev rest k r Hall Hstop Hlo Hk.
  - simpl in Hlo. assert (lo = 0%nat) as -> by lia.
    simpl in Hk. rewrite Nat.add_0_r in Hk.
    destruct rest as [|c rest]; simpl; [exact Hk|].
    simpl in Hstop. rewrite Hstop. exact Hk.
  - simpl in Hall. apply andb_prop in Hall as [Hc Hall].
    simpl app. simpl rep_greedy. rewrite Hc.
    rewrite (IH (Nat.pred lo) (S n) (Some c) rest k r); auto.
    + simpl in Hlo. lia.
    + simpl in Hk. rewrite Nat.add_succ_r in Hk. exact Hk.
Qed.

Lemma rep_greedy_stops (cls : char -> bool) (lo n : nat)
    (prev : option char) (suf : text)
    (k : nat -> option char -> text -> option found) :
  stops cls suf -> (0 < lo)%nat -> rep_greedy cls lo n prev suf k = None.
Proof.
  intros Hstop Hlo. destruct lo as [|lo]; [lia|].
  destruct suf as [|c suf]; simpl; [reflexivity|].
  simpl in Hstop. rewrite Hstop. reflexivity.
Qed.

Lemma rep_lazy_until (cls : char -> bool) (body : text) :
  forall (n : nat) (prev : option char) (rest : text)
    (k : nat -> option char -> text -> option found) (r : found),
  forallb cls body = true ->
  (forall a b, body = a ++ b -> b <> [] ->
     k (n + List.length a)%nat (lastc prev a) (b ++ rest) = None) ->
  k (n + List.length body)%nat (lastc prev body) rest = Some r ->
  rep_lazy cls 0 n prev (body ++ rest) k = Some r.
Proof.
  induction body as [|c body IH]; intros n prev rest k r Hall Hnot Hk.
  - simpl in Hk. rewrite Nat.add_0_r in Hk.
    destruct rest; simpl; rewrite Hk; reflexivity.
  - simpl in Hall. apply andb_prop in Hall as [Hc Hall].
    simpl app. simpl rep_lazy.
    pose proof (Hnot [] (c :: body) eq_refl ltac:(discriminate)) as H0.
    simpl in H0. rewrite Nat.add_0_r in H0. rewrite H0, Hc.
    apply IH; auto.
    + intros a b Hab Hb.
      pose proof (Hnot (c :: a) b ltac:(simpl; congruence) Hb) as H1.
      simpl in H1. rewrite Nat.add_succ_r in H1. exact H1.
    + simpl in Hk. rewrite Nat.add_succ_r in Hk. exact Hk.
Qed.

Lemma firstn_consumed {A : Type} (n : nat) (body rest : list A) :
  firstn (n + List.length body - n) (body ++ rest) = body.
Proof.
  replace (n + List.length body - n)%nat with (List.length body) by lia.
  rewrite firstn_app, Nat.sub_diag, firstn_all. simpl.
  apply app_nil_r.
Qed.

(** A lazy group: it ends at the first position where the rest of the
    pattern matches. *)
Lemma run_lazy_group (cls : char -> bool) (body rest : text) (n : nat)
    (prev : option char) (cs : list text)
    (k : nat -> option char -> text -> list text -> option found)
    (r : found) :
  forallb cls body = true ->
  (forall a b cs', body = a ++ b -> b <> [] ->
     k (n + List.length a)%nat (lastc prev a) (b ++ rest) cs' = None) ->
  k (n + List.length body)%nat (lastc prev body) rest (cs ++ [body])
  = Some r ->
  run (Grp (Rep Lazy 0 cls)) n prev (body ++ rest) cs k = Some r.
Proof.
  intros Hall Hnot Hk. simpl.
  apply rep_lazy_until;
    [exact Hall
    |intros a b Hab Hb; apply Hnot; auto
    |rewrite firstn_consumed; exact Hk].
Qed.

(** A greedy group that takes all it can, when the rest of the pattern
    then matches. *)
Lemma run_greedy_group (cls : char -> bool) (body rest : text) (n : nat)
    (prev : option char) (cs : list text)
    (k : nat -> option char -> text -> list text -> option found)
    (r : found) :
  forallb cls body = true ->
  stops cls rest ->
  k (n + List.length body)%nat (lastc prev body) rest (cs ++ [body])
  = Some r ->
  run (Grp (Rep Greedy 0 cls)) n prev (body ++ rest) cs k = Some r.
Proof.
  intros Hall Hstop Hk. simpl.
  apply rep_greedy_take;
    [exact Hall|exact Hstop|lia|rewrite firstn_consumed; exact Hk].
Qed.

(** ** The scan of [re.sub] *)

Lemma scan_plain (r : regex) (pre : text) :
  forall (prev : option char) (rest : text),
  (forall a b, pre = a ++ b -> b <> [] ->
     match_at r (lastc prev a) (b ++ rest) = None) ->
  scan r prev (pre ++ rest) 0
  = List.map Plain pre ++ scan r (lastc prev pre) rest 0.
Proof.
  induction pre as [|c pre IH]; intros prev rest Hnot; [reflexivity|].
  simpl app. simpl scan.
  pose proof (Hnot [] (c :: pre) eq_refl ltac:(discriminate)) as H0.
  simpl in H0. rewrite H0.
  simpl List.map. simpl app. f_equal. apply IH. intros a b Hab Hb.
  apply (Hnot (c :: a) b); [simpl; congruence|exact Hb].
Qed.

Lemma scan_skip (r : regex) (m : text) :
  forall (prev : option char) (rest : text),
  scan r prev (m ++ rest) (List.length m) = scan r (lastc prev m) rest 0.
Proof.
  induction m as [|c m IH]; intros prev rest; [reflexivity|].
  simpl. apply IH.
Qed.

Lemma scan_hit (r : regex) (m rest : text) (prev : option char)
    (g : list text) :
  m <> [] ->
  match_at r prev (m ++ rest) = Some (List.length m, g) ->
  scan r prev (m ++ rest) 0 = Hit g :: scan r (lastc prev m) rest 0.
Proof.
  intros Hm Hmatch. destruct m as [|c m]; [congruence|].
  simpl app in *. simpl scan. rewrite Hmatch. simpl List.length.
  f_equal. apply (scan_skip r m (Some c) rest).
Qed.

Lemma subst_plain (repl : list text -> text) (pre : text)
    (l : list chunk) :
  subst repl (List.map Plain pre ++ l) = pre ++ subst repl l.
Proof. induction pre as [|c pre IH]; simpl; congruence. Qed.

Lemma subst_all_plain (repl : list text -> text) (s : text) :
  subst repl (List.map Plain s) = s.
Proof. induction s as [|c s IH]; simpl; congruence. Qed.

Lemma subst_st_plain {S : Type} (repl : S -> list text -> S * text)
    (st : S) (pre : text) (l : list chunk) :
  subst_st repl st (List.map Plain pre ++ l)
  = (fst (subst_st repl st l), pre ++ snd (subst_st repl st l)).
Proof.
  induction pre as [|c pre IH]; simpl.
  - destruct (subst_st repl st l); reflexivity.
  - rewrite IH. reflexivity.
Qed.

Lemma rep_greedy_prev (cls : char -> bool) (suf : text) :
  forall (lo n : nat) (p1 p2 : option char)
    (k1 k2 : nat -> option char -> text -> option found),
  (forall n' q1 q2 s', k1 n' q1 s' = k2 n' q2 s') ->
  rep_greedy cls lo n p1 suf k1 = rep_greedy cls lo n p2 suf k2.
Proof.
  induction suf as [|c suf IH]; intros lo n p1 p2 k1 k2 Hk; simpl.
  - destruct lo; auto.
  - rewrite (IH (Nat.pred lo) (S n) (Some c) (Some c) k1 k2 Hk).
    destruct lo; rewrite ?(Hk n p1 p2); reflexivity.
Qed.

Lemma rep_lazy_prev (cls : char -> bool) (suf : text) :
  forall (lo n : nat) (p1 p2 : option char)
    (k1 k2 : nat -> option char -> text -> option found),
  (forall n' q1 q2 s', k1 n' q1 s' = k2 n' q2 s') ->
  rep_lazy cls lo n p1 suf k1 = rep_lazy cls lo n p2 suf k2.
Proof.
  induction suf as [|c suf IH]; intros lo n p1 p2 k1 k2 Hk; simpl.
  - destruct lo; rewrite ?(Hk n p1 p2); reflexivity.
  - rewrite (IH (Nat.pred lo) (S n) (Some c) (Some c) k1 k2 Hk).
    destruct lo; rewrite ?(Hk n p1 p2); reflexivity.
Qed.

Lemma run_prev (r : regex) :
  no_lookbehind r = true ->
  forall (n : nat) (p1 p2 : option char) (suf : text) (cs : list text)
    (k1 k2 : nat -> option char -> text -> list text -> option found),
  (forall n' q1 q2 s' cs', k1 n' q1 s' cs' = k2 n' q2 s' cs') ->
  run r n p1 suf cs k1 = run r n p2 suf cs k2.
Proof.
  induction r as [| c | | | | | m lo cls | r1 IH1 | r1 IH1 r2 IH2];
    intros Hr n p1 p2 suf cs k1 k2 Hk; simpl in *; try discriminate.
  - apply Hk.
  - destruct suf as [|x suf]; [reflexivity|].
    destruct (x =? c); [apply Hk|reflexivity].
  - destruct suf as [|x suf]; [apply Hk|].
    destruct (x =? nl); [apply Hk|reflexivity].
  - destruct suf as [|x [|y suf]]; [apply Hk| |reflexivity].
    destruct (x =? nl); [apply Hk|reflexivity].
  - destruct m; [apply rep_greedy_prev|apply rep_lazy_prev];
      intros; apply Hk.
  - apply IH1; [exact Hr|]. intros. apply Hk.
  - apply andb_prop in Hr as [Hr1 Hr2].
    apply IH1; [exact Hr1|]. intros. apply IH2; [exact Hr2|exact Hk].
Qed.

Lemma match_at_prev (r : regex) (p1 p2 : option char) (suf : text) :
  no_lookbehind r = true -> match_at r p1 suf = match_at r p2 suf.
Proof.
  intros Hr. unfold match_at. apply run_prev; [exact Hr|reflexivity].
Qed.

Lemma scan_prev (r : regex) (suf : text) :
  no_lookbehind r = true ->
  forall (p1 p2 : option char) (skip : nat),
  scan r p1 suf skip = scan r p2 suf skip.
Proof.
  intros Hr. induction suf as [|c suf IH]; intros p1 p2 skip; simpl.
  - rewrite (match_at_prev r p1 p2 [] Hr). reflexivity.
  - rewrite (match_at_prev r p1 p2 (c :: suf) Hr). reflexivity.
Qed.

(** ** The image stage *)

Lemma contains_middle (c x : char) (a b : text) :
  contains c (a ++ x :: b) = false -> (x =? c) = false.
Proof.
  rewrite contains_app, contains_cons. intros H.
  apply orb_false_elim in H as [_ H]. apply orb_false_elim in H as [H _].
  rewrite N.eqb_sym. exact H.
Qed.

Lemma forallb_dot (s : text) : contains nl s = false -> forallb dot s = true.
Proof.
  induction s as [|x s IH]; intros H; [reflexivity|].
  rewrite contains_cons in H. apply orb_false_elim in H as [Hx Hs].
  simpl. unfold dot at 1. rewrite N.eqb_sym, Hx. simpl. auto.
Qed.

Lemma startswith_head (p : text) (c x : char) (s : text) :
  (x =? c) = false -> startswith (c :: p) (x :: s) = false.
Proof. intros H. simpl. rewrite N.eqb_sym, H. reflexivity. Qed.





(** ** The code-block stage *)

Lemma run_lit (c : char) (n : nat) (prev : option char) (suf : text)
    (cs : list text)
    (k : nat -> option char -> text -> list text -> option found) :
  run (Lit c) n prev (c :: suf) cs k = k (S n) (Some c) suf cs.
Proof. simpl. rewrite N.eqb_refl. reflexivity. Qed.

Lemma forallb_dot_all (s : text) : forallb dot_all s = true.
Proof. induction s; simpl; auto. Qed.






(** ** The heading stage *)

Lemma lastc_in (prev : option char) (a : text) :
  a <> [] -> exists p, lastc prev a = Some p /\ In p a.
Proof.
  revert prev. induction a as [|c a IH]; intros prev Ha; [congruence|].
  destruct a as [|d a].
  - exists c. simpl. auto.
  - destruct (IH (Some c) ltac:(discriminate)) as (p & Hp & Hin).
    exists p. split; [exact Hp|right; exact Hin].
Qed.

Lemma contains_in (c p : char) (s : text) :
  contains c s = false -> In p s -> (p =? c) = false.
Proof.
  intros Hc Hin. apply in_split in Hin as (a & b & ->).
  exact (contains_middle _ _ _ _ Hc).
Qed.

Lemma run_bol_start (n : nat) (suf : text) (cs : list text)
    (k : nat -> option char -> text -> list text -> option found) :
  run Bol n None suf cs k = k n None suf cs.
Proof. reflexivity. Qed.

Lemma heading_no_match_inside (k : nat) (p : char) (suf : text) :
  (p =? nl) = false -> match_at (heading_re k) (Some p) suf = None.
Proof.
  intros H. unfold match_at, heading_re. rewrite seq_re_cons.
  simpl. rewrite H. reflexivity.
Qed.

Lemma startswith_app (p s : text) :
  startswith p s = true -> s = p ++ skipn (List.length p) s.
Proof.
  revert s. induction p as [|a p IH]; intros s H; [reflexivity|].
  destruct s as [|b s]; [discriminate|].
  simpl in H. apply andb_prop in H as [Hab H].
  apply N.eqb_eq in Hab. subst b. simpl. f_equal. apply IH. exact H.
Qed.

Lemma heading_no_match_start (k : nat) (s : text) :
  heading_shape k s = false -> match_at (heading_re k) None s = None.
Proof.
  unfold heading_shape, match_at, heading_re. intros H.
  rewrite seq_re_cons, run_bol_start, seq_re_cons.
  destruct (startswith (hashes k) s) eqn:E.
  - simpl in H. apply startswith_app in E.
    unfold hashes in E at 2. rewrite repeat_length in E.
    rewrite E at 1. fold (hashes k). rewrite run_lits, seq_re_cons.
    apply rep_greedy_stops; [|lia].
    destruct (skipn k s); [exact I|exact H].
  - apply run_lits_fail. exact E.
Qed.

Lemma heading_sub_miss (k : nat) (s : text) :
  contains nl s = false -> heading_shape k s = false -> heading_sub k s = s.
Proof.
  intros Hnl Hshape. unfold heading_sub, re_sub, chunks.
  assert (Hend : scan (heading_re k) (lastc None s) [] 0 = []).
  { simpl. destruct s as [|c s].
    - simpl. rewrite (heading_no_match_start k [] Hshape). reflexivity.
    - destruct (lastc_in None (c :: s) ltac:(discriminate)) as (p & -> & Hin).
      rewrite heading_no_match_inside; [reflexivity|].
      exact (contains_in _ _ _ Hnl Hin). }
  rewrite <- (app_nil_r s) at 1. rewrite scan_plain, Hend, app_nil_r.
  - apply subst_all_plain.
  - intros a b Hab Hb. rewrite app_nil_r.
    destruct a as [|c a].
    + simpl in *. subst b. exact (heading_no_match_start k s Hshape).
    + destruct (lastc_in None (c :: a) ltac:(discriminate)) as (p & -> & Hin).
      apply heading_no_match_inside.
      apply (contains_in _ _ s Hnl). rewrite Hab. apply in_or_app. auto.
Qed.

Lemma run_rep_greedy (lo : nat) (cls : char -> bool) (n : nat)
    (prev : option char) (suf : text) (cs : list text)
    (k : nat -> option char -> text -> list text -> option found) :
  run (Rep Greedy lo cls) n prev suf cs k
  = rep_greedy cls lo n prev suf (fun n' p' s' => k n' p' s' cs).
Proof. reflexivity. Qed.


Lemma contains_hashes (k : nat) : contains nl (hashes k) = false.
Proof. induction k as [|k IH]; [reflexivity|exact IH]. Qed.


Lemma heading_shape_succ (j : nat) (s : text) :
  heading_shape (S j) (ch "#" :: s) = heading_shape j s.
Proof. reflexivity. Qed.

Lemma heading_shape_other_start (j : nat) (c : char) (s : text) :
  (c =? ch "#") = false -> heading_shape (S j) (c :: s) = false.
Proof.
  intros H. unfold heading_shape, hashes. cbn [startswith repeat].
  rewrite N.eqb_sym, H. reflexivity.
Qed.

Lemma heading_shape_other (j n : nat) (rest : text) :
  j <> n -> stops (is_char (ch "#")) rest ->
  heading_shape j (hashes n ++ rest) = false.
Proof.
  revert n. induction j as [|j IH]; intros n Hjn Hrest.
  - destruct n as [|n]; [congruence|reflexivity].
  - destruct n as [|n].
    + simpl app. destruct rest as [|c rest]; [reflexivity|].
      apply heading_shape_other_start. exact Hrest.
    + change (hashes (S n) ++ rest) with (ch "#" :: hashes n ++ rest).
      rewrite heading_shape_succ. apply IH; [lia|exact Hrest].
Qed.

Lemma heading_shape_same (n : nat) (rest : text) :
  stops is_space rest -> heading_shape n (hashes n ++ rest) = false.
Proof.
  intros Hrest. induction n as [|n IH].
  - unfold heading_shape. simpl. destruct rest; [reflexivity|exact Hrest].
  - change (hashes (S n) ++ rest) with (ch "#" :: hashes n ++ rest).
    rewrite heading_shape_succ. exact IH.
Qed.



Lemma heading_sub_skip (j n : nat) (rest : text) :
  j <> n -> stops (is_char (ch "#")) rest -> contains nl rest = false ->
  heading_sub j (hashes n ++ rest) = hashes n ++ rest.
Proof.
  intros Hjn Hrest Hnl. apply heading_sub_miss.
  - rewrite contains_app, contains_hashes, Hnl. reflexivity.
  - apply heading_shape_other; assumption.
Qed.





Lemma stage_headings_miss (n : nat) (rest : text) :
  stops (is_char (ch "#")) rest -> contains nl rest = false ->
  (stops is_space rest \/ (6 < n)%nat \/ n = 0%nat) ->
  stage_headings (hashes n ++ rest) = hashes n ++ rest.
Proof.
  intros Hrest Hnl Hcase.
  assert (Hall : forall j, (1 <= j <= 6)%nat ->
            heading_sub j (hashes n ++ rest) = hashes n ++ rest).
  { intros j Hj. destruct (Nat.eq_dec j n) as [->|Hjn].
    - destruct Hcase as [Hsp|[H6|H0]]; try lia.
      apply heading_sub_miss.
      + rewrite contains_app, contains_hashes, Hnl. reflexivity.
      + apply heading_shape_same. exact Hsp.
    - apply heading_sub_skip; assumption. }
  unfold stage_headings. rewrite !Hall by lia. reflexivity.
Qed.



Section SyncFacts.

Context {path server : Type}.
Variable uni_word : char -> bool.
Variable os : os_env path.
Variable api : remote path server.
Variable cfg : config.

Lemma sends_ret (P : request path -> Prop) {A : Type} (a : A) :
  sends (server := server) P (ret a).
Proof. intros w. exists []. simpl. rewrite app_nil_r. auto. Qed.

Lemma sends_print (P : request path -> Prop) (m : msg path) :
  sends (server := server) P (print m).
Proof. intros w. exists []. simpl. rewrite app_nil_r. auto. Qed.

Lemma sends_prints (P : request path -> Prop) (l : list (msg path)) :
  sends (server := server) P (prints l).
Proof. intros w. exists []. simpl. rewrite app_nil_r. auto. Qed.

Lemma sends_send (P : request path -> Prop) {A : Type} (rq : request path)
    (f : server -> response A * server) :
  P rq -> sends (server := server) P (send rq f).
Proof.
  intros H w. exists [rq]. unfold send.
  destruct (f (srv w)) as [r s']. simpl. auto.
Qed.

Lemma sends_bind (P : request path -> Prop) {A B : Type}
    (c : M (path := path) (server := server) A)
    (k : A -> M (path := path) (server := server) B) :
  sends P c -> (forall a, sends P (k a)) -> sends P (bind c k).
Proof.
  intros Hc Hk w. unfold bind.
  destruct (Hc w) as (n1 & E1 & F1).
  destruct (c w) as [a w1]. simpl in E1.
  destruct (Hk a w1) as (n2 & E2 & F2).
  exists (n1 ++ n2). rewrite E2, E1, app_assoc. split; [reflexivity|].
  apply Forall_app; auto.
Qed.

Lemma sends_weaken (P Q : request path -> Prop) {A : Type}
    (c : M (path := path) (server := server) A) :
  (forall rq, P rq -> Q rq) -> sends P c -> sends Q c.
Proof.
  intros HPQ Hc w. destruct (Hc w) as (new & E & F).
  exists new. split; [exact E|]. eapply Forall_impl; eauto.
Qed.

Ltac sends_step :=
  first
    [ apply sends_ret | apply sends_print | apply sends_prints
    | apply sends_send; simpl; solve [auto]
    | apply sends_bind; [|intros ?] ].

Ltac sends_auto :=
  repeat (sends_step
          || match goal with
             | |- sends _ (match ?x with _ => _ end) => destruct x
             | |- sends _ (if ?b then _ else _) => destruct b
             | |- sends _ (let '(_, _) := ?x in _) => destruct x
             end).

Lemma upload_attachment_sends (id : text) (file_path : path) :
  sends (server := server) is_attachment_request
    (upload_attachment os api id file_path).
Proof. unfold upload_attachment. sends_auto. Qed.

Lemma upload_all_sends (id : text) (images : list path) :
  sends (server := server) is_attachment_request (upload_all os api id images).
Proof.
  induction images as [|f l IH]; simpl; [apply sends_ret|].
  apply sends_bind; [apply upload_attachment_sends|intros _; exact IH].
Qed.

Lemma upload_attachment_uploads (id : text) (file_path : path) :
  sends (server := server) (is_upload_of os id [file_path])
    (upload_attachment os api id file_path).
Proof. unfold upload_attachment. sends_auto. Qed.

Lemma upload_all_uploads (id : text) (images : list path) :
  sends (server := server) (is_upload_of os id images)
    (upload_all os api id images).
Proof.
  induction images as [|f l IH]; simpl; [apply sends_ret|].
  apply sends_bind; [|intros _].
  - apply (sends_weaken (is_upload_of os id [f]));
      [|apply upload_attachment_uploads].
    intros [] H; simpl in *; try tauto.
    all: destruct H as (Hid & [<-|[]] & Hname); auto.
  - apply (sends_weaken (is_upload_of os id l)); [|exact IH].
    intros [] H; simpl in *; tauto.
Qed.

Lemma convert_sends (P : request path -> Prop) (body : text)
    (md_file : path) (id : option text) :
  sends (server := server) P
    (convert (server := server) uni_word os body md_file id).
Proof.
  unfold convert.
  destruct (markdown_to_confluence_storage _ _ _ _ _ _) as [[i p] c].
  sends_auto.
Qed.

Lemma convert_frame (body : text) (md_file : path) (id : option text)
    (w : world (path := path) (server := server)) :
  srv (snd (convert uni_word os body md_file id w)) = srv w
  /\ calls (snd (convert uni_word os body md_file id w)) = calls w
  /\ fst (fst (convert uni_word os body md_file id w))
     = snd (markdown_to_confluence_storage uni_word os body (Some md_file)
              None (Some [], [])).
Proof.
  unfold convert, markdown_to_confluence_storage.
  destruct (stage_images _ _ _ _) as [[images printed] content].
  repeat split; reflexivity.
Qed.

Lemma update_page_calls (id title content : text) (version : Z)
    (w : world (path := path) (server := server)) :
  calls (snd (update_page api cfg id title content version w))
  = calls w ++ [PutContent id (version + 1) title content].
Proof.
  unfold update_page, bind, send.
  destruct (put_content api (srv w) id (version + 1) title content)
    as [[status pg|] s']; simpl; [|reflexivity].
  destruct (status =? 200)%Z; reflexivity.
Qed.

Lemma uploads_after_sends (result : option page) (images : list path)
    (id : text) :
  sends (server := server) is_attachment_request
    (match result, images with
     | Some _, _ :: _ =>
         bind (print (MsgUploading (List.length images)))
           (fun _ => upload_all os api id images)
     | _, _ => ret tt
     end).
Proof.
  destruct result, images; try apply sends_ret.
  apply sends_bind; [apply sends_print|intros _; apply upload_all_sends].
Qed.

Lemma update_existing_calls (md_file : path) (body title id : text)
    (existing_page : page) (images : list path)
    (w : world (path := path) (server := server)) :
  let value :=
    snd (markdown_to_confluence_storage uni_word os body (Some md_file)
           None (Some [], [])) in
  exists rest,
    calls (snd (update_existing uni_word os api cfg md_file body title id
                  existing_page value images w))
    = calls w
      ++ PutContent id (version_number existing_page + 1) title value :: rest
    /\ Forall is_attachment_request rest.
Proof.
  intros value. unfold update_existing.
  unfold bind at 1.
  assert (Hconv : exists images' w1,
    (match images with
     | [] => ret (value, images)
     | _ :: _ => convert uni_word os body md_file (Some id)
     end) w = ((value, images'), w1) /\ calls w1 = calls w).
  { destruct images as [|i l].
    - exists [], w. split; reflexivity.
    - pose proof (convert_frame body md_file (Some id) w) as (_ & Hc & Hv).
      destruct (convert uni_word os body md_file (Some id) w)
        as [[v images'] w1].
      simpl in Hc, Hv. subst v. exists images', w1. split; auto. }
  destruct Hconv as (images' & w1 & -> & Hc1).
  unfold bind at 1.
  pose proof (update_page_calls id title value
                (version_number existing_page) w1) as Hput.
  destruct (update_page api cfg id title value
              (version_number existing_page) w1) as [result w2].
  simpl in Hput.
  unfold bind at 1.
  destruct (uploads_after_sends result images' id w2)
    as (rest & Hrest & Hall).
  match type of Hrest with
  | calls (snd (?c w2)) = _ => destruct (c w2) as [[] w3]
  end.
  simpl in Hrest. simpl.
  exists rest. split; [|exact Hall].
  rewrite Hrest, Hput, Hc1, <- app_assoc. reflexivity.
Qed.

Lemma search_page_by_title_spec (space_key title : text)
    (w : world (path := path) (server := server))
    (r : response (list page)) (s1 : server) :
  search_content api (srv w) space_key title = (r, s1) ->
  exists w',
    search_page_by_title api space_key title w = (search_hit title r, w')
    /\ calls w' = calls w ++ [SearchContent space_key title]
    /\ srv w' = s1.
Proof.
  intros H. unfold search_page_by_title, bind, send. rewrite H.
  destruct r as [status results|]; simpl.
  - destruct (status =? 200)%Z; eexists; split;
      reflexivity || (split; reflexivity).
  - eexists; split; [reflexivity|split; reflexivity].
Qed.

Lemma create_page_calls (space_key title content parent_id : text)
    (w : world (path := path) (server := server)) :
  calls (snd (create_page api cfg space_key title content parent_id w))
  = calls w ++ [PostContent space_key title content (ancestor_of parent_id)].
Proof.
  unfold create_page, bind, send.
  destruct (post_content api (srv w) space_key title content
              (ancestor_of parent_id)) as [[status pg|] s']; simpl;
    [|reflexivity].
  destruct (status =? 200)%Z; reflexivity.
Qed.

Lemma attachment_is_not_create (rq : request path) :
  is_attachment_request rq -> ~ is_create rq.
Proof. destruct rq; simpl; tauto. Qed.

(** The requests of a file that names no page: the search, then the
    update of the page found or the creation of a page. *)
Lemma search_path_calls (md_file : path) (content : text)
    (w : world (path := path) (server := server))
    (r : response (list page)) (s1 : server) :
  let frontmatter := fst (parse_frontmatter content) in
  let title :=
    default (stem os md_file) (frontmatter !! u "confluence_title") in
  let space_key :=
    default (SPACE_KEY cfg) (frontmatter !! u "confluence_space_key") in
  let parent_id :=
    default (PARENT_ID cfg) (frontmatter !! u "confluence_parent_id") in
  let value :=
    snd (markdown_to_confluence_storage uni_word os
           (snd (parse_frontmatter content)) (Some md_file) None
           (Some [], [])) in
  read_text os md_file = Some content ->
  frontmatter !! u "confluence_page_id" = None ->
  search_content api (srv w) space_key title = (r, s1) ->
  exists rest,
    calls (snd (process_markdown_file uni_word os api cfg md_file w))
    = calls w
      ++ SearchContent space_key title
      :: match search_hit title r with
         | Some pg =>
             PutContent (page_id pg) (version_number pg + 1) title value
         | None => PostContent space_key title value (ancestor_of parent_id)
         end
      :: rest
    /\ Forall (fun rq => ~ is_create rq) rest
    /\ (search_hit title r <> None -> Forall is_attachment_request rest).
Proof.
  intros frontmatter title space_key parent_id value Hread Hid Hsearch.
  subst frontmatter title space_key parent_id value.
  unfold process_markdown_file.
  unfold bind at 1. unfold print at 1. cbn [fst snd]. rewrite Hread.
  destruct (parse_frontmatter content) as [frontmatter body].
  cbn [fst snd] in *. rewrite Hid.
  unfold bind at 1.
  match goal with
  | |- context [convert uni_word os body md_file None ?w0] =>
      pose proof (convert_frame body md_file None w0) as (Hs & Hc & Hv);
      destruct (convert uni_word os body md_file None w0)
        as [[confluence_content images] w1]
  end.
  cbn [fst snd srv calls] in Hs, Hc, Hv. subst confluence_content.
  unfold bind at 1.
  rewrite <- Hs in Hsearch.
  destruct (search_page_by_title_spec _ _ _ _ _ Hsearch)
    as (w2 & -> & Hc2 & Hs2).
  destruct (search_hit _ r) as [pg|].
  - unfold bind at 1, print at 1.
    match goal with
    | |- context [update_existing _ _ _ _ md_file body ?t ?i pg _ images ?w0] =>
        destruct (update_existing_calls md_file body t i pg images w0)
          as (rest & Hrest & Hall)
    end.
    cbn [calls] in Hrest. exists rest. rewrite Hrest, Hc2, Hc, <- app_assoc.
    split; [reflexivity|]. split; [|intros _; exact Hall].
    eapply Forall_impl; [exact Hall|]. apply attachment_is_not_create.
  - unfold bind at 1.
    match goal with
    | |- context [create_page api cfg ?s ?t ?c ?p w2] =>
        pose proof (create_page_calls s t c p w2) as Hpost;
        destruct (create_page api cfg s t c p w2) as [result w3]
    end.
    cbn [snd] in Hpost.
    destruct result as [created|].
    + destruct images as [|i l].
      * exists []. unfold bind, print, ret. cbn [fst snd calls].
        rewrite Hpost, Hc2, Hc, <- app_assoc.
        split; [reflexivity|]. split; [constructor|congruence].
      * unfold bind at 1 2 3. unfold print at 1.
        match goal with
        | |- context [upload_all os api ?i0 ?l0 ?w0] =>
            destruct (upload_all_sends i0 l0 w0) as (up & Hup & Hall);
            destruct (upload_all os api i0 l0 w0) as [[] w4]
        end.
        cbn [snd calls] in Hup.
        unfold bind at 1.
        match goal with
        | |- context [convert uni_word os body md_file ?i0 w4] =>
            pose proof (convert_frame body md_file i0 w4) as (_ & Hc5 & Hv5);
            destruct (convert uni_word os body md_file i0 w4)
              as [[content5 images5] w5]
        end.
        cbn [fst snd] in Hc5, Hv5.
        unfold bind at 1.
        match goal with
        | |- context [update_page api cfg ?i0 ?t ?c ?v w5] =>
            pose proof (update_page_calls i0 t c v w5) as Hput;
            destruct (update_page api cfg i0 t c v w5) as [result6 w6]
        end.
        cbn [snd] in Hput.
        unfold bind, print, ret. cbn [fst snd calls].
        eexists (up ++ [_]).
        rewrite Hput, Hc5, Hup, Hpost, Hc2, Hc, <- !app_assoc.
        split; [reflexivity|]. split; [|congruence].
        apply Forall_app. split.
        -- eapply Forall_impl; [exact Hall|]. apply attachment_is_not_create.
        -- constructor; [simpl; tauto|constructor].
    + exists []. unfold ret. cbn [fst snd calls].
      rewrite Hpost, Hc2, Hc, <- app_assoc.
      split; [reflexivity|]. split; [constructor|congruence].
Qed.

Lemma get_page_by_id_spec (id : text)
    (w : world (path := path) (server := server)) (r : response page)
    (s1 : server) :
  get_content api (srv w) id = (r, s1) ->
  exists w',
    get_page_by_id api id w
    = (match r with
       | Response status pg => if (status =? 200)%Z then Some pg else None
       | RequestException => None
       end, w')
    /\ calls w' = calls w ++ [GetContent id]
    /\ srv w' = s1
    /\ exists printed, out w' = out w ++ printed.
Proof.
  intros H. unfold get_page_by_id, bind, send. rewrite H.
  destruct r as [status pg|]; simpl.
  - destruct (status =? 200)%Z.
    + eexists. split; [reflexivity|]. simpl. repeat split.
      exists []. rewrite app_nil_r. reflexivity.
    + destruct (status =? 404)%Z; eexists; (split; [reflexivity|]); simpl;
        repeat split.
      * exists []. rewrite app_nil_r. reflexivity.
      * eexists. reflexivity.
  - eexists. split; [reflexivity|]. simpl. repeat split. eexists. reflexivity.
Qed.

(** The requests of a file that names a page which the remote has. *)
Lemma identified_path_calls (md_file : path) (content id : text)
    (w : world (path := path) (server := server)) (pg : page) (s1 : server) :
  let frontmatter := fst (parse_frontmatter content) in
  let title :=
    default (stem os md_file) (frontmatter !! u "confluence_title") in
  let value :=
    snd (markdown_to_confluence_storage uni_word os
           (snd (parse_frontmatter content)) (Some md_file) None
           (Some [], [])) in
  read_text os md_file = Some content ->
  frontmatter !! u "confluence_page_id" = Some id ->
  get_content api (srv w) id = (Response 200 pg, s1) ->
  exists rest,
    calls (snd (process_markdown_file uni_word os api cfg md_file w))
    = calls w
      ++ GetContent id
      :: PutContent id (version_number pg + 1) title value
      :: rest
    /\ Forall is_attachment_request rest.
Proof.
  intros frontmatter title value Hread Hid Hget.
  subst frontmatter title value.
  unfold process_markdown_file.
  unfold bind at 1. unfold print at 1. cbn [fst snd]. rewrite Hread.
  destruct (parse_frontmatter content) as [frontmatter body].
  cbn [fst snd] in *. rewrite Hid.
  unfold bind at 1.
  match goal with
  | |- context [convert uni_word os body md_file None ?w0] =>
      pose proof (convert_frame body md_file None w0) as (Hs & Hc & Hv);
      destruct (convert uni_word os body md_file None w0)
        as [[confluence_content images] w1]
  end.
  cbn [fst snd srv calls] in Hs, Hc, Hv. subst confluence_content.
  unfold bind at 1.
  rewrite <- Hs in Hget.
  destruct (get_page_by_id_spec _ _ _ _ Hget) as (w2 & -> & Hc2 & Hs2 & _).
  cbn [Z.eqb Pos.eqb].
  match goal with
  | |- context [update_existing _ _ _ _ md_file body ?t ?i pg _ images w2] =>
      destruct (update_existing_calls md_file body t i pg images w2)
        as (rest & Hrest & Hall)
  end.
  cbn [calls] in Hrest. exists rest. rewrite Hrest, Hc2, Hc, <- app_assoc.
  split; [reflexivity|exact Hall].
Qed.

Lemma get_page_by_id_sends (P : request path -> Prop) (id : text) :
  P (GetContent id) -> sends (server := server) P (get_page_by_id api id).
Proof. intros H. unfold get_page_by_id. sends_auto. Qed.

Lemma search_page_by_title_sends (P : request path -> Prop)
    (space_key title : text) :
  P (SearchContent space_key title) ->
  sends (server := server) P (search_page_by_title api space_key title).
Proof. intros H. unfold search_page_by_title. sends_auto. Qed.

Lemma create_page_sends (P : request path -> Prop)
    (space_key title content parent_id : text) :
  P (PostContent space_key title content (ancestor_of parent_id)) ->
  sends (server := server) P
    (create_page api cfg space_key title content parent_id).
Proof. intros H. unfold create_page. sends_auto. Qed.

Lemma update_page_sends (P : request path -> Prop) (id title content : text)
    (version : Z) :
  P (PutContent id (version + 1) title content) ->
  sends (server := server) P (update_page api cfg id title content version).
Proof. intros H. unfold update_page. sends_auto. Qed.

Lemma uploads_titled (title id : text) (images : list path) :
  sends (server := server) (titled title) (upload_all os api id images).
Proof.
  eapply sends_weaken; [|apply upload_all_sends].
  intros []; simpl; tauto.
Qed.

Lemma update_existing_sends (title : text) (md_file : path) (body id : text)
    (existing_page : page) (content : text) (images : list path) :
  sends (server := server) (titled title)
    (update_existing uni_word os api cfg md_file body title id existing_page
       content images).
Proof.
  unfold update_existing.
  repeat first
    [ apply convert_sends | apply uploads_titled
    | apply update_page_sends; reflexivity
    | sends_step
    | match goal with
      | |- sends _ (match ?x with _ => _ end) => destruct x
      | |- sends _ (let '(_, _) := ?x in _) => destruct x
      end ].
Qed.

(** Every request of a file carries the title decided for it. *)
Lemma process_sends_titled (md_file : path) (content : text) :
  read_text os md_file = Some content ->
  sends (server := server)
    (titled (default (stem os md_file)
               (fst (parse_frontmatter content) !! u "confluence_title")))
    (process_markdown_file uni_word os api cfg md_file).
Proof.
  intros Hread. unfold process_markdown_file.
  apply sends_bind; [apply sends_print|intros _].
  rewrite Hread.
  destruct (parse_frontmatter content) as [frontmatter body].
  cbn [fst snd].
  repeat first
    [ apply convert_sends | apply uploads_titled
    | apply update_existing_sends
    | apply update_page_sends; reflexivity
    | apply create_page_sends; reflexivity
    | apply search_page_by_title_sends; reflexivity
    | apply get_page_by_id_sends; exact I
    | sends_step
    | match goal with
      | |- sends _ (match ?x with _ => _ end) => destruct x
      | |- sends _ (let '(_, _) := ?x in _) => destruct x
      end ].
Qed.




(** C4: when the front-matter names a page and the remote answers 404 to
    its lookup, the lookup is the only request of the file (no search, no
    creation), the file is reported as skipped, the result is a failure
    and the run counts it among the failures, not the successes. *)
Theorem explicit_id_not_found_is_skipped (md_file : path) (content id : text)
    (w : world (path := path) (server := server)) (pg : page) (s' : server)
    (others : list path) (success_count failure_count : nat) :
  read_text os md_file = Some content ->
  fst (parse_frontmatter content) !! u "confluence_page_id" = Some id ->
  get_content api (srv w) id = (Response 404 pg, s') ->
  exists w',
    process_markdown_file uni_word os api cfg md_file w = (false, w')
    /\ calls w' = calls w ++ [GetContent id]
    /\ last (out w') = Some (MsgSkipping id)
    /\ count_files uni_word os api cfg (md_file :: others) success_count
         failure_count w
       = count_files uni_word os api cfg others success_count
           (S failure_count) w'.
Proof.
  intros Hread Hid Hget.
  assert (Hfile : exists w',
    process_markdown_file uni_word os api cfg md_file w = (false, w')
    /\ calls w' = calls w ++ [GetContent id]
    /\ last (out w') = Some (MsgSkipping id)).
  { unfold process_markdown_file, bind at 1, print at 1.
    cbn [fst snd]. rewrite Hread.
    destruct (parse_frontmatter content) as [frontmatter body].
    cbn [fst] in Hid. unfold bind at 1.
    match goal with
    | |- context [convert uni_word os body md_file None ?w0] =>
        pose proof (convert_frame body md_file None w0) as (Hs & Hc & _);
        destruct (convert uni_word os body md_file None w0)
          as [[confluence_content images] w1]
    end.
    cbn [snd srv calls] in Hs, Hc. rewrite Hid.
    unfold bind, get_page_by_id, send, bind. rewrite Hs, Hget.
    cbn [Z.eqb Pos.eqb]. unfold ret, print. cbn [fst snd srv calls out].
    eexists. split; [reflexivity|]. cbn [calls out]. rewrite Hc.
    split; [reflexivity|apply last_snoc]. }
  destruct Hfile as (w' & Hfile & Hcalls & Hout).
  exists w'. repeat split; try assumption.
  cbn [count_files]. unfold bind. rewrite Hfile. reflexivity.
Qed.

(** C5: the update request carries the version it is given plus one, and
    in both branches that update a page that exists (the page named by
    the front-matter, the page found by title) the version given is the
    one of the page just fetched, the request before the update. *)
Theorem update_sends_fetched_version_plus_one :
  (forall (id title content : text) (version : Z)
      (w : world (path := path) (server := server)),
     calls (snd (update_page api cfg id title content version w))
     = calls w ++ [PutContent id (version + 1) title content])
  /\ (forall (md_file : path) (content id : text)
        (w : world (path := path) (server := server)) (pg : page)
        (s1 : server),
       read_text os md_file = Some content ->
       fst (parse_frontmatter content) !! u "confluence_page_id" = Some id ->
       get_content api (srv w) id = (Response 200 pg, s1) ->
       exists title value rest,
         calls (snd (process_markdown_file uni_word os api cfg md_file w))
         = calls w
           ++ GetContent id
           :: PutContent id (version_number pg + 1) title value :: rest
         /\ Forall is_attachment_request rest)
  /\ (forall (md_file : path) (content : text)
        (w : world (path := path) (server := server))
        (r : response (list page)) (s1 : server) (pg : page),
       let frontmatter := fst (parse_frontmatter content) in
       let title :=
         default (stem os md_file) (frontmatter !! u "confluence_title") in
       let space_key :=
         default (SPACE_KEY cfg) (frontmatter !! u "confluence_space_key") in
       read_text os md_file = Some content ->
       frontmatter !! u "confluence_page_id" = None ->
       search_content api (srv w) space_key title = (r, s1) ->
       search_hit title r = Some pg ->
       exists value rest,
         calls (snd (process_markdown_file uni_word os api cfg md_file w))
         = calls w
           ++ SearchContent space_key title
           :: PutContent (page_id pg) (version_number pg + 1) title value
           :: rest
         /\ Forall is_attachment_request rest).
Proof.
  split; [exact update_page_calls|]. split.
  - intros md_file content id w pg s1 Hread Hid Hget.
    destruct (identified_path_calls md_file content id w pg s1 Hread Hid Hget)
      as (rest & Hcalls & Hall).
    eauto.
  - intros md_file content w r s1 pg frontmatter title space_key
      Hread Hid Hsearch Hhit.
    destruct (search_path_calls md_file content w r s1 Hread Hid Hsearch)
      as (rest & Hcalls & _ & Hall).
    fold frontmatter title space_key in Hcalls, Hall.
    rewrite Hhit in Hcalls, Hall.
    eexists _, rest. split; [exact Hcalls|]. apply Hall. congruence.
Qed.

(** C9: when the front-matter has no key [confluence_title], every
    request of the file that carries a title (search, creation, update)
    carries the stem of the file's path: its name without the last
    suffix. *)
Theorem title_defaults_to_stem (md_file : path) (content : text)
    (w : world (path := path) (server := server)) :
  read_text os md_file = Some content ->
  fst (parse_frontmatter content) !! u "confluence_title" = None ->
  exists new,
    calls (snd (process_markdown_file uni_word os api cfg md_file w))
    = calls w ++ new
    /\ Forall (titled (stem os md_file)) new.
Proof.
  intros Hread Htitle.
  pose proof (process_sends_titled md_file content Hread w) as H.
  rewrite Htitle in H. exact H.
Qed.

End SyncFacts.

(** ** The theorems of the reconciler on the small instance *)

Lemma explicit_id_not_found_is_skipped_witness :
  read_text Demo.os (u "docs/pinned.md") = Some Demo.pinned_file
  /\ fst (parse_frontmatter Demo.pinned_file) !! u "confluence_page_id"
     = Some (u "42")
  /\ get_content Demo.api (srv (Demo.world0 [])) (u "42")
     = (Response 404 Demo.dummy_page, [])
  /\ exists w',
       process_markdown_file Demo.no_uni_word Demo.os Demo.api Demo.cfg
         (u "docs/pinned.md") (Demo.world0 []) = (false, w')
       /\ calls w' = [GetContent (u "42")].
Proof.
  assert (H1 : read_text Demo.os (u "docs/pinned.md") = Some Demo.pinned_file)
    by (vm_compute; reflexivity).
  assert (H2 : fst (parse_frontmatter Demo.pinned_file)
                 !! u "confluence_page_id" = Some (u "42"))
    by (vm_compute; reflexivity).
  assert (H3 : get_content Demo.api (srv (Demo.world0 [])) (u "42")
               = (Response 404 Demo.dummy_page, []))
    by (vm_compute; reflexivity).
  repeat split; try assumption.
  destruct (explicit_id_not_found_is_skipped Demo.no_uni_word Demo.os
              Demo.api Demo.cfg (u "docs/pinned.md") Demo.pinned_file
              (u "42") (Demo.world0 []) Demo.dummy_page [] [] 0 0 H1 H2 H3)
    as (w' & Hfile & Hcalls & _).
  exists w'. split; assumption.
Defined.

Lemma update_sends_fetched_version_plus_one_witness :
  exists title value rest,
    calls (snd (process_markdown_file Demo.no_uni_word Demo.os Demo.api
                  Demo.cfg (u "docs/pinned.md")
                  (Demo.world0 [Demo.page42])))
    = GetContent (u "42") :: PutContent (u "42") 6 title value :: rest.
Proof.
  destruct (update_sends_fetched_version_plus_one Demo.no_uni_word Demo.os
              Demo.api Demo.cfg) as (_ & Hid & _).
  destruct (Hid (u "docs/pinned.md") Demo.pinned_file (u "42")
              (Demo.world0 [Demo.page42]) Demo.page42 [Demo.page42])
    as (title & value & rest & Hcalls & _);
    try (vm_compute; reflexivity).
  exists title, value, rest. exact Hcalls.
Defined.

Lemma title_defaults_to_stem_witness :
  read_text Demo.os (u "docs/plain.md") = Some Demo.plain_file
  /\ fst (parse_frontmatter Demo.plain_file) !! u "confluence_title" = None
  /\ exists new,
       calls (snd (process_markdown_file Demo.no_uni_word Demo.os Demo.api
                     Demo.cfg (u "docs/plain.md") (Demo.world0 [])))
       = new
       /\ Forall (titled (u "plain")) new.
Proof.
  assert (H1 : read_text Demo.os (u "docs/plain.md") = Some Demo.plain_file)
    by (vm_compute; reflexivity).
  assert (H2 : fst (parse_frontmatter Demo.plain_file)
                 !! u "confluence_title" = None)
    by (vm_compute; reflexivity).
  repeat split; try assumption.
  exact (title_defaults_to_stem Demo.no_uni_word Demo.os Demo.api Demo.cfg
           (u "docs/plain.md") Demo.plain_file (Demo.world0 []) H1 H2).
Defined.


Lemma hash_truncates_frontmatter_value_witness :
  contains (ch ":") (u "confluence_title") = false
  /\ contains (ch "#") (u " " ++ dq :: u "Issue ") = false
  /\ frontmatter_line ∅
       (u "confluence_title" ++ ch ":" :: (u " " ++ dq :: u "Issue ")
          ++ ch "#" :: u "1" ++ [dq])
       !! strip (u "confluence_title")
     = Some (strip_by is_quote (strip (u " " ++ dq :: u "Issue "))).
Proof.
  assert (H1 : contains (ch ":") (u "confluence_title") = false)
    by reflexivity.
  assert (H2 : contains (ch "#") (u " " ++ dq :: u "Issue ") = false)
    by reflexivity.
  split; [exact H1|]. split; [exact H2|].
  exact (proj1 (proj2 (hash_truncates_frontmatter_value ∅
                         (u "confluence_title") (u " " ++ dq :: u "Issue ")
                         (u "1" ++ [dq]) H1 H2))).
Defined.

Lemma three_line_table_witness :
  stage_tables
    (u "| a | b |" ++ nl :: u "|---|---|" ++ nl :: u "| 1 | 2 |")
  = u "<table><tbody>" ++ table_row (u "th") (cells (u "| a | b |"))
      ++ table_row (u "td") (cells (u "| 1 | 2 |")) ++ u "</tbody></table>"
  /\ List.length (cells (u "| a | b |")) = 2%nat.
Proof.
  destruct (three_line_table (u "| a | b |") (u "|---|---|") (u "| 1 | 2 |"))
    as (Htable & Hcells & _); try reflexivity.
  split; [exact Htable|exact Hcells].
Defined.

(** ** The theorems of the converter on small inputs *)


(** ** The copy under [scripts/] *)

Section ScriptsFacts.

Context {path server : Type}.
Variable uni_word : char -> bool.
Variable os : os_env path.
Variable api : remote path server.
Variable cfg : config.

(** The converter of the copy is the part of the converter above that
    comes after the image stage. *)
Lemma scripts_converter_is_later_stages (md_content : text) :
  Scripts.markdown_to_confluence_storage uni_word md_content
  = stages_after_images uni_word md_content.
Proof. reflexivity. Qed.

(** X19: without a page identifier the copy under [scripts/] sends one
    request, the creation, with the title, space and parent of the
    front-matter or their defaults; the parent is sent when it is not
    empty. The copy does not search by title. *)
Lemma scripts_no_id_creates (md_file : path) (content : text)
    (w : world (path := path) (server := server)) :
  let frontmatter := fst (parse_frontmatter content) in
  let title :=
    default (stem os md_file) (frontmatter !! u "confluence_title") in
  let space_key :=
    default (SPACE_KEY cfg) (frontmatter !! u "confluence_space_key") in
  let parent_id :=
    default (PARENT_ID cfg) (frontmatter !! u "confluence_parent_id") in
  read_text os md_file = Some content ->
  frontmatter !! u "confluence_page_id" = None ->
  calls (snd (Scripts.process_markdown_file uni_word os api cfg md_file w))
  = calls w
    ++ [PostContent space_key title
          (Scripts.markdown_to_confluence_storage uni_word
             (snd (parse_frontmatter content)))
          match parent_id with
          | [] => None
          | _ :: _ => Some parent_id
          end].
Proof.
  intros frontmatter title space_key parent_id Hread Hid.
  subst frontmatter title space_key parent_id.
  unfold Scripts.process_markdown_file, bind at 1, print at 1.
  cbn [fst snd]. rewrite Hread.
  destruct (parse_frontmatter content) as [frontmatter body].
  cbn [fst snd] in *. rewrite Hid. unfold bind at 1.
  match goal with
  | |- context [create_page api cfg ?s ?t ?c ?p ?w0] =>
      pose proof (create_page_calls api cfg s t c p w0) as Hpost;
      destruct (create_page api cfg s t c p w0) as [result w1]
  end.
  cbn [snd calls] in Hpost.
  destruct result; unfold bind, print, ret; cbn [fst snd calls];
    exact Hpost.
Qed.

(** X20: with a page identifier the copy under [scripts/] behaves as
    the other one does on a text without images: the page found is
    updated with its version plus one, and a page that is not found is
    skipped with a failure, the lookup being the only request. *)
Lemma scripts_identified_path (md_file : path) (content id : text)
    (w : world (path := path) (server := server)) (status : Z) (pg : page)
    (s1 : server) :
  let title :=
    default (stem os md_file)
      (fst (parse_frontmatter content) !! u "confluence_title") in
  let value :=
    Scripts.markdown_to_confluence_storage uni_word
      (snd (parse_frontmatter content)) in
  read_text os md_file = Some content ->
  fst (parse_frontmatter content) !! u "confluence_page_id" = Some id ->
  get_content api (srv w) id = (Response status pg, s1) ->
  (status = 200%Z \/ status = 404%Z) ->
  calls (snd (Scripts.process_markdown_file uni_word os api cfg md_file w))
  = calls w
    ++ GetContent id
    :: (if (status =? 200)%Z
        then [PutContent id (version_number pg + 1) title value]
        else [])
  /\ ((status =? 200)%Z = false ->
      fst (Scripts.process_markdown_file uni_word os api cfg md_file w)
      = false).
Proof.
  intros title value Hread Hid Hget Hstatus. subst title value.
  destruct (Scripts.process_markdown_file uni_word os api cfg md_file w)
    as [ok w'] eqn:E.
  unfold Scripts.process_markdown_file, bind at 1, print at 1 in E.
  rewrite Hread in E.
  destruct (parse_frontmatter content) as [frontmatter body].
  cbn [fst snd] in *. rewrite Hid in E. unfold bind at 1 in E.
  match type of E with
  | context [get_page_by_id api id ?w0] =>
      destruct (get_page_by_id_spec api id w0 _ _ Hget)
        as (w2 & Hw2 & Hc2 & _ & _)
  end.
  rewrite Hw2 in E. cbn [srv calls] in Hc2.
  destruct Hstatus as [-> | ->]; cbn [Z.eqb Pos.eqb] in *.
  - split; [|discriminate]. unfold bind in E.
    match type of E with
    | context [update_page api cfg ?i ?t ?c ?v w2] =>
        pose proof (update_page_calls api cfg i t c v w2) as Hput;
        destruct (update_page api cfg i t c v w2) as [result w3]
    end.
    cbn [snd] in Hput. unfold ret in E. injection E as _ <-.
    rewrite Hput, Hc2, <- app_assoc. reflexivity.
  - unfold bind, print, ret in E. injection E as <- <-.
    cbn [calls]. split; [exact Hc2|reflexivity].
Qed.

End ScriptsFacts.

(* ------------------------------------------------------------------ *)
(** * Further properties of the reconciler *)

Section SyncExtras.

Context {path server : Type}.
Variable uni_word : char -> bool.
Variable os : os_env path.
Variable api : remote path server.
Variable cfg : config.

Lemma get_page_by_id_answer (id : text)
    (w : world (path := path) (server := server)) (r : response page)
    (s1 : server) :
  get_content api (srv w) id = (r, s1) ->
  exists w',
    get_page_by_id api id w = (answered_page r, w')
    /\ calls w' = calls w ++ [GetContent id]
    /\ srv w' = s1.
Proof.
  intros H.
  destruct (get_page_by_id_spec api id w r s1 H) as (w' & E & Hc & Hs & _).
  exists w'. split; [exact E|]. split; assumption.
Qed.

Lemma create_page_answer (space_key title content parent_id : text)
    (w : world (path := path) (server := server)) (r : response page)
    (s1 : server) :
  post_content api (srv w) space_key title content (ancestor_of parent_id)
  = (r, s1) ->
  exists w',
    create_page api cfg space_key title content parent_id w
    = (answered_page r, w')
    /\ calls w'
       = calls w
         ++ [PostContent space_key title content (ancestor_of parent_id)]
    /\ srv w' = s1.
Proof.
  intros H. unfold create_page, bind, send. rewrite H.
  destruct r as [status pg|]; simpl.
  - destruct (status =? 200)%Z; eexists; (split; [reflexivity|]);
      split; reflexivity.
  - eexists; split; [reflexivity|]. split; reflexivity.
Qed.

Lemma update_page_answer (id title content : text) (version : Z)
    (w : world (path := path) (server := server)) (r : response page)
    (s1 : server) :
  put_content api (srv w) id (version + 1) title content = (r, s1) ->
  exists w',
    update_page api cfg id title content version w = (answered_page r, w')
    /\ calls w' = calls w ++ [PutContent id (version + 1) title content]
    /\ srv w' = s1.
Proof.
  intros H. unfold update_page, bind, send. rewrite H.
  destruct r as [status pg|]; simpl.
  - destruct (status =? 200)%Z; eexists; (split; [reflexivity|]);
      split; reflexivity.
  - eexists; split; [reflexivity|]. split; reflexivity.
Qed.

(** X1: when the front-matter names a page and the lookup does not
    answer 200 (any other status, or an exception of the transport), the
    file is skipped as for a page that is not found: the lookup is its
    only request and the result is a failure. *)
Theorem lookup_failure_is_skipped (md_file : path) (content id : text)
    (w : world (path := path) (server := server)) (r : response page)
    (s1 : server) :
  read_text os md_file = Some content ->
  fst (parse_frontmatter content) !! u "confluence_page_id" = Some id ->
  get_content api (srv w) id = (r, s1) ->
  answered_page r = None ->
  exists w',
    process_markdown_file uni_word os api cfg md_file w = (false, w')
    /\ calls w' = calls w ++ [GetContent id]
    /\ srv w' = s1
    /\ last (out w') = Some (MsgSkipping id).
Proof.
  intros Hread Hid Hget Hnone.
  unfold process_markdown_file, bind at 1, print at 1.
  cbn [fst snd]. rewrite Hread.
  destruct (parse_frontmatter content) as [frontmatter body].
  cbn [fst] in Hid. unfold bind at 1.
  match goal with
  | |- context [convert uni_word os body md_file None ?w0] =>
      pose proof (convert_frame uni_word os body md_file None w0)
        as (Hs & Hc & _);
      destruct (convert uni_word os body md_file None w0)
        as [[confluence_content images] w1]
  end.
  cbn [snd srv calls] in Hs, Hc. rewrite Hid. unfold bind at 1.
  rewrite <- Hs in Hget.
  destruct (get_page_by_id_answer id w1 r s1 Hget) as (w2 & -> & Hc2 & Hs2).
  rewrite Hnone. unfold bind, print, ret. cbn [fst snd].
  eexists. split; [reflexivity|]. cbn [calls srv out].
  rewrite Hc2, Hc. repeat split; [exact Hs2|apply last_snoc].
Qed.

Lemma convert_result (body : text) (md_file : path) (id : option text)
    (w : world (path := path) (server := server)) :
  exists w',
    convert uni_word os body md_file id w
    = ((snd (markdown_to_confluence_storage uni_word os body (Some md_file)
               None (Some [], [])),
        default []
          (fst (fst (markdown_to_confluence_storage uni_word os body
                       (Some md_file) None (Some [], []))))),
       w')
    /\ srv w' = srv w /\ calls w' = calls w.
Proof.
  unfold convert, markdown_to_confluence_storage.
  destruct (stage_images _ _ _ _) as [[images printed] content].
  eexists. split; [reflexivity|]. split; reflexivity.
Qed.

Lemma update_existing_answer (md_file : path) (body title id : text)
    (existing_page : page) (images : list path)
    (w : world (path := path) (server := server)) (r : response page)
    (s1 : server) :
  let value :=
    snd (markdown_to_confluence_storage uni_word os body (Some md_file)
           None (Some [], [])) in
  put_content api (srv w) id (version_number existing_page + 1) title value
  = (r, s1) ->
  exists w',
    update_existing uni_word os api cfg md_file body title id existing_page
      value images w
    = (bool_decide (answered_page r <> None), w')
    /\ (answered_page r = None ->
        calls w'
        = calls w
          ++ [PutContent id (version_number existing_page + 1) title value]
        /\ srv w' = s1).
Proof.
  intros value Hput. unfold update_existing. unfold bind at 1.
  assert (Hconv : exists images' w1,
    (match images with
     | [] => ret (value, images)
     | _ :: _ => convert uni_word os body md_file (Some id)
     end) w = ((value, images'), w1)
    /\ calls w1 = calls w /\ srv w1 = srv w).
  { destruct images as [|i l].
    - exists [], w. repeat split.
    - destruct (convert_result body md_file (Some id) w)
        as (w1 & -> & Hs & Hc).
      eexists _, w1. repeat split; assumption. }
  destruct Hconv as (images' & w1 & -> & Hc1 & Hs1).
  unfold bind at 1. rewrite <- Hs1 in Hput.
  destruct (update_page_answer id title value _ w1 r s1 Hput)
    as (w2 & -> & Hc2 & Hs2).
  destruct (answered_page r) as [pg|].
  - unfold bind.
    match goal with
    | |- context [let '(_, _) := ?c w2 in _] => destruct (c w2) as [[] w3]
    end.
    eexists. split; [reflexivity|]. congruence.
  - unfold bind, ret. eexists. split; [reflexivity|].
    intros _. cbn [calls srv]. rewrite Hc2, Hc1. split; [reflexivity|].
    exact Hs2.
Qed.

(** X2: for a file that names a page the remote has, the result is a
    success exactly when the update answers 200; when it does not, the
    lookup and the update are the only requests: no attachment is
    uploaded for a page whose update failed. *)
Theorem update_answer_decides_success (md_file : path) (content id : text)
    (w : world (path := path) (server := server)) (pg : page)
    (r : response page) (s1 s2 : server) :
  let title :=
    default (stem os md_file)
      (fst (parse_frontmatter content) !! u "confluence_title") in
  let value :=
    snd (markdown_to_confluence_storage uni_word os
           (snd (parse_frontmatter content)) (Some md_file) None
           (Some [], [])) in
  read_text os md_file = Some content ->
  fst (parse_frontmatter content) !! u "confluence_page_id" = Some id ->
  get_content api (srv w) id = (Response 200 pg, s1) ->
  put_content api s1 id (version_number pg + 1) title value = (r, s2) ->
  exists w',
    process_markdown_file uni_word os api cfg md_file w
    = (bool_decide (answered_page r <> None), w')
    /\ (answered_page r = None ->
        calls w'
        = calls w
          ++ [GetContent id;
              PutContent id (version_number pg + 1) title value]
        /\ srv w' = s2).
Proof.
  intros title value Hread Hid Hget Hput. subst title value.
  unfold process_markdown_file, bind at 1, print at 1.
  cbn [fst snd]. rewrite Hread.
  destruct (parse_frontmatter content) as [frontmatter body].
  cbn [fst snd] in *. rewrite Hid. unfold bind at 1.
  match goal with
  | |- context [convert uni_word os body md_file None ?w0] =>
      destruct (convert_result body md_file None w0) as (w1 & -> & Hs & Hc)
  end.
  cbn [srv calls] in Hs, Hc. unfold bind at 1.
  rewrite <- Hs in Hget.
  destruct (get_page_by_id_answer id w1 _ s1 Hget) as (w2 & -> & Hc2 & Hs2).
  cbn [answered_page Z.eqb Pos.eqb].
  rewrite <- Hs2 in Hput.
  destruct (update_existing_answer md_file body _ id pg
              (default []
                 (fst (fst (markdown_to_confluence_storage uni_word os body
                              (Some md_file) None (Some [], [])))))
              w2 r s2 Hput) as (w3 & -> & Hfail).
  exists w3. split; [reflexivity|].
  intros Hnone. destruct (Hfail Hnone) as [Hc3 Hs3].
  rewrite Hc3, Hc2, Hc, <- app_assoc. split; [reflexivity|exact Hs3].
Qed.

(** X3: for a file that names no page, when the title search yields no
    page (no exact match, a status other than 200, or an exception), the
    page is created, and the result is a success exactly when the
    creation answers 200; when it does not, nothing is sent after it. A
    failed search alone does not fail the file. *)
Theorem creation_answer_decides_success (md_file : path) (content : text)
    (w : world (path := path) (server := server))
    (r : response (list page)) (rp : response page) (s1 s2 : server) :
  let frontmatter := fst (parse_frontmatter content) in
  let title :=
    default (stem os md_file) (frontmatter !! u "confluence_title") in
  let space_key :=
    default (SPACE_KEY cfg) (frontmatter !! u "confluence_space_key") in
  let parent_id :=
    default (PARENT_ID cfg) (frontmatter !! u "confluence_parent_id") in
  let value :=
    snd (markdown_to_confluence_storage uni_word os
           (snd (parse_frontmatter content)) (Some md_file) None
           (Some [], [])) in
  read_text os md_file = Some content ->
  frontmatter !! u "confluence_page_id" = None ->
  search_content api (srv w) space_key title = (r, s1) ->
  search_hit title r = None ->
  post_content api s1 space_key title value (ancestor_of parent_id)
  = (rp, s2) ->
  exists w',
    process_markdown_file uni_word os api cfg md_file w
    = (bool_decide (answered_page rp <> None), w')
    /\ (answered_page rp = None ->
        calls w'
        = calls w
          ++ [SearchContent space_key title;
              PostContent space_key title value (ancestor_of parent_id)]
        /\ srv w' = s2).
Proof.
  intros frontmatter title space_key parent_id value Hread Hid Hsearch Hhit
    Hpost.
  subst frontmatter title space_key parent_id value.
  unfold process_markdown_file, bind at 1, print at 1.
  cbn [fst snd]. rewrite Hread.
  destruct (parse_frontmatter content) as [frontmatter body].
  cbn [fst snd] in *. rewrite Hid. unfold bind at 1.
  match goal with
  | |- context [convert uni_word os body md_file None ?w0] =>
      destruct (convert_result body md_file None w0) as (w1 & -> & Hs & Hc)
  end.
  cbn [srv calls] in Hs, Hc. unfold bind at 1.
  rewrite <- Hs in Hsearch.
  destruct (search_page_by_title_spec api _ _ w1 r s1 Hsearch)
    as (w2 & -> & Hc2 & Hs2).
  rewrite Hhit. unfold bind at 1. rewrite <- Hs2 in Hpost.
  destruct (create_page_answer _ _ _ _ w2 rp s2 Hpost)
    as (w3 & -> & Hc3 & Hs3).
  destruct (answered_page rp) as [created|].
  - unfold bind at 1.
    match goal with
    | |- context [let '(_, _) := ?c w3 in _] => destruct (c w3) as [[] w4]
    end.
    unfold bind, print, ret. eexists. split; [reflexivity|]. congruence.
  - unfold ret. exists w3. split; [reflexivity|].
    intros _. rewrite Hc3, Hc2, Hc, <- app_assoc.
    split; [reflexivity|exact Hs3].
Qed.

Lemma upload_attachment_first_request (id : text) (file_path : path)
    (w : world (path := path) (server := server)) :
  exists tail,
    calls (snd (upload_attachment os api id file_path w))
    = calls w ++ GetAttachments id :: tail.
Proof.
  unfold upload_attachment, bind at 1, send at 1.
  destruct (get_attachments api (srv w) id) as [ra sa].
  destruct ra as [status atts|]; [|eexists; reflexivity].
  destruct (open_rb os file_path); [|eexists; reflexivity].
  unfold bind at 1.
  match goal with
  | |- context [let '(_, _) := ?c ?w0 in _] =>
      assert (Hs : sends (server := server) is_attachment_request c)
  end.
  { destruct (if (status =? 200)%Z then _ else None);
      apply sends_send; exact I. }
  match goal with
  | |- context [let '(_, _) := ?c ?w0 in _] =>
      destruct (Hs w0) as (new & Hnew & _); destruct (c w0) as [rr w1]
  end.
  cbn [snd calls] in Hnew.
  destruct rr as [st2 []|];
    [destruct ((st2 =? 200)%Z || (st2 =? 201)%Z)|];
    unfold bind, print, ret; cbn [snd calls]; rewrite Hnew, <- app_assoc;
    eexists; reflexivity.
Qed.

Lemma upload_all_first_request (id : text) (image : path)
    (images : list path) (w : world (path := path) (server := server)) :
  exists more,
    calls (snd (upload_all os api id (image :: images) w))
    = calls w ++ GetAttachments id :: more.
Proof.
  cbn [upload_all]. unfold bind.
  destruct (upload_attachment_first_request id image w) as (tail & Htail).
  destruct (upload_attachment os api id image w) as [o w1].
  cbn [snd] in Htail.
  destruct (upload_all_sends os api id images w1) as (new & Hnew & _).
  rewrite Hnew, Htail, <- app_assoc. eexists. reflexivity.
Qed.

(** X4: when a page is created for a text with local images, the
    requests that follow the creation are uploads to the new page, of
    files of the list of images and under their names, the first of them
    the listing of the attachments of the new page; the page is then
    updated once more, with the version of the creation's answer plus
    one. These are the last requests of the file, and the result is a
    success whatever the uploads and the second update answer. *)
Theorem created_page_with_images_is_updated_again (md_file : path)
    (content : text) (w : world (path := path) (server := server))
    (r : response (list page)) (created : page) (s1 s2 : server)
    (image : path) (images : list path) :
  let frontmatter := fst (parse_frontmatter content) in
  let title :=
    default (stem os md_file) (frontmatter !! u "confluence_title") in
  let space_key :=
    default (SPACE_KEY cfg) (frontmatter !! u "confluence_space_key") in
  let parent_id :=
    default (PARENT_ID cfg) (frontmatter !! u "confluence_parent_id") in
  let converted :=
    markdown_to_confluence_storage uni_word os
      (snd (parse_frontmatter content)) (Some md_file) None (Some [], []) in
  read_text os md_file = Some content ->
  frontmatter !! u "confluence_page_id" = None ->
  search_content api (srv w) space_key title = (r, s1) ->
  search_hit title r = None ->
  post_content api s1 space_key title (snd converted)
    (ancestor_of parent_id)
  = (Response 200 created, s2) ->
  fst (fst converted) = Some (image :: images) ->
  exists uploads,
    fst (process_markdown_file uni_word os api cfg md_file w) = true
    /\ calls (snd (process_markdown_file uni_word os api cfg md_file w))
       = calls w
         ++ [SearchContent space_key title;
             PostContent space_key title (snd converted)
               (ancestor_of parent_id)]
         ++ uploads
         ++ [PutContent (page_id created) (version_number created + 1)
               title (snd converted)]
    /\ Forall (is_upload_of os (page_id created) (image :: images)) uploads
    /\ (exists more, uploads = GetAttachments (page_id created) :: more).
Proof.
  intros frontmatter title space_key parent_id converted Hread Hid Hsearch
    Hhit Hpost Himages.
  subst frontmatter title space_key parent_id converted.
  destruct (process_markdown_file uni_word os api cfg md_file w)
    as [ok w'] eqn:E.
  unfold process_markdown_file, bind at 1, print at 1 in E.
  rewrite Hread in E.
  destruct (parse_frontmatter content) as [frontmatter body].
  cbn [fst snd] in *. rewrite Hid in E. unfold bind at 1 in E.
  match type of E with
  | context [convert uni_word os body md_file None ?w0] =>
      destruct (convert_result body md_file None w0) as (w1 & Hw1 & Hs & Hc)
  end.
  rewrite Hw1 in E. rewrite Himages in E.
  cbn [srv calls default from_option id] in Hs, Hc, E.
  unfold bind at 1 in E. rewrite <- Hs in Hsearch.
  destruct (search_page_by_title_spec api _ _ w1 r s1 Hsearch)
    as (w2 & Hw2 & Hc2 & Hs2).
  rewrite Hw2, Hhit in E. unfold bind at 1 in E. rewrite <- Hs2 in Hpost.
  destruct (create_page_answer _ _ _ _ w2 _ s2 Hpost)
    as (w3 & Hw3 & Hc3 & Hs3).
  rewrite Hw3 in E. cbn [answered_page Z.eqb Pos.eqb] in E.
  unfold bind at 1 2 3, print at 1 in E.
  match type of E with
  | context [upload_all os api ?i0 ?l0 ?w0] =>
      destruct (upload_all_uploads os api i0 l0 w0) as (up & Hup & Hall);
      destruct (upload_all_first_request i0 image images w0)
        as (more & Hmore);
      destruct (upload_all os api i0 l0 w0) as [[] w4]
  end.
  cbn [snd calls] in Hup, Hmore. unfold bind at 1 in E.
  destruct (convert_result body md_file (Some (page_id created)) w4)
    as (w5 & Hw5 & Hs5 & Hc5).
  rewrite Hw5 in E. unfold bind at 1 in E.
  pose proof (update_page_calls api cfg (page_id created)
                (default (stem os md_file)
                   (frontmatter !! u "confluence_title"))
                (snd (markdown_to_confluence_storage uni_word os body
                        (Some md_file) None (Some [], [])))
                (version_number created) w5) as Hput.
  destruct (update_page api cfg _ _ _ _ w5) as [result6 w6].
  cbn [snd] in Hput. unfold bind, print, ret in E. injection E as <- <-.
  exists up. split; [reflexivity|]. cbn [calls].
  split; [rewrite Hput, Hc5, Hup, Hc3, Hc2, Hc, <- !app_assoc; reflexivity|].
  split; [exact Hall|].
  rewrite Hup in Hmore. apply app_inv_head in Hmore.
  exists more. exact Hmore.
Qed.

(** X5: an upload first lists the attachments of the page; when the
    listing answers 200 and holds an attachment whose title is the name
    of the file, the data of that attachment is replaced, otherwise (no
    such title, or a listing that does not answer 200) the file is posted
    as a new attachment; when the listing raises or the file cannot be
    opened, the listing is the only request and nothing is uploaded. *)
Theorem upload_replaces_attachment_of_same_name (id : text)
    (file_path : path) (w : world (path := path) (server := server))
    (r : response (list attachment)) (s1 : server) :
  let filename := name os file_path in
  get_attachments api (srv w) id = (r, s1) ->
  (r <> RequestException -> open_rb os file_path = true ->
   calls (snd (upload_attachment os api id file_path w))
   = calls w
     ++ [GetAttachments id;
         match listed_attachment filename r with
         | Some a =>
             PostAttachmentData id (attachment_id a) filename file_path
         | None => PostAttachment id filename file_path
         end])
  /\ (r = RequestException \/ open_rb os file_path = false ->
      calls (snd (upload_attachment os api id file_path w))
      = calls w ++ [GetAttachments id]
      /\ fst (upload_attachment os api id file_path w) = None).
Proof.
  intros filename Hlist. subst filename. split.
  - intros Hr Hopen. destruct r as [status atts|]; [|congruence].
    unfold upload_attachment, bind at 1, send at 1.
    rewrite Hlist, Hopen. cbn [listed_attachment]. unfold bind at 1.
    destruct (if (status =? 200)%Z then _ else None) as [a|];
      unfold send; cbn [srv calls out].
    + destruct (post_attachment_data api s1 id (attachment_id a)
                  (name os file_path) file_path) as [rr ss].
      destruct rr as [st2 []|];
        [destruct ((st2 =? 200)%Z || (st2 =? 201)%Z)|];
        unfold bind, print, ret; cbn [snd calls];
        rewrite <- ?app_assoc; reflexivity.
    + destruct (post_attachment api s1 id (name os file_path) file_path)
        as [rr ss].
      destruct rr as [st2 []|];
        [destruct ((st2 =? 200)%Z || (st2 =? 201)%Z)|];
        unfold bind, print, ret; cbn [snd calls];
        rewrite <- ?app_assoc; reflexivity.
  - intros Hcase.
    destruct (upload_attachment os api id file_path w) as [o w'] eqn:E.
    unfold upload_attachment, bind at 1, send at 1 in E.
    rewrite Hlist in E. destruct Hcase as [-> | Hopen].
    + unfold bind, print, ret in E. injection E as <- <-.
      split; reflexivity.
    + destruct r as [status atts|]; [rewrite Hopen in E|];
        unfold bind, print, ret in E; injection E as <- <-;
        split; reflexivity.
Qed.

Lemma count_files_total (md_files : list path) :
  forall (success_count failure_count : nat)
    (w : world (path := path) (server := server)),
  let counts :=
    fst (count_files uni_word os api cfg md_files success_count
           failure_count w) in
  (fst counts + snd counts
   = success_count + failure_count + List.length md_files)%nat.
Proof.
  induction md_files as [|f l IH]; intros sc fc w; simpl.
  - lia.
  - unfold bind.
    destruct (process_markdown_file uni_word os api cfg f w) as [[] w1].
    + specialize (IH (S sc) fc w1). simpl in IH. lia.
    + specialize (IH sc (S fc) w1). simpl in IH. lia.
Qed.

(** X6: a run counts every markdown file found exactly once, as a
    success or as a failure; when the directory does not exist both
    counts are zero and nothing is sent. *)
Theorem every_file_is_counted_once (docs_dir : text)
    (w : world (path := path) (server := server)) :
  let run := process_markdown_files uni_word os api cfg docs_dir w in
  if exists_ os (path_of os docs_dir) then
    (fst (fst run) + snd (fst run)
     = List.length (rglob_md os (path_of os docs_dir)))%nat
  else
    fst run = (0%nat, 0%nat) /\ calls (snd run) = calls w
    /\ srv (snd run) = srv w.
Proof.
  unfold process_markdown_files.
  destruct (exists_ os (path_of os docs_dir)); cbn [negb].
  - destruct (rglob_md os (path_of os docs_dir)) as [|f l] eqn:E;
      [reflexivity|].
    unfold bind at 1, print at 1.
    match goal with
    | |- context [count_files _ _ _ _ ?fs ?a ?b ?w0] =>
        pose proof (count_files_total fs a b w0) as H
    end.
    simpl in H. exact H.
  - repeat split.
Qed.

(** X7: when a required setting is empty, [main] ends with status 1
    after reporting the missing names, without a request; and when the
    settings are complete but the directory [docs] does not exist or
    holds no markdown file, it ends with status 0 without a request. *)
Theorem main_without_work (w : world (path := path) (server := server)) :
  let docs := path_of os (u "docs") in
  (missing_config cfg <> [] ->
   fst (main uni_word os api cfg w) = 1%Z
   /\ calls (snd (main uni_word os api cfg w)) = calls w
   /\ last (out (snd (main uni_word os api cfg w)))
      = Some (MsgMissingConfig (missing_config cfg)))
  /\ (missing_config cfg = [] ->
      exists_ os docs = false \/ rglob_md os docs = [] ->
      fst (main uni_word os api cfg w) = 0%Z
      /\ calls (snd (main uni_word os api cfg w)) = calls w
      /\ last (out (snd (main uni_word os api cfg w)))
         = Some (MsgSummary 0 0)).
Proof.
  intros docs.
  destruct (main uni_word os api cfg w) as [code w'] eqn:E.
  unfold main, bind at 1, print at 1 in E. cbn [fst snd]. split.
  - intros Hmissing.
    destruct (missing_config cfg) as [|m l]; [congruence|].
    unfold bind, print, ret in E. injection E as <- <-.
    cbn [calls out]. repeat split. apply last_snoc.
  - intros Hcfg Hnone. rewrite Hcfg in E.
    assert (Hrun : forall w0 : world (path := path) (server := server),
      exists printed,
        process_markdown_files uni_word os api cfg (u "docs") w0
        = ((0%nat, 0%nat),
           {| srv := srv w0; calls := calls w0;
              out := out w0 ++ [printed] |})).
    { intros w0. unfold process_markdown_files. fold docs.
      destruct (exists_ os docs); cbn [negb].
      - destruct Hnone as [Hnone|Hnone]; [discriminate|].
        rewrite Hnone. eexists. reflexivity.
      - eexists. reflexivity. }
    unfold bind at 1, print at 1 in E. unfold bind at 1 in E.
    match type of E with
    | context [process_markdown_files _ _ _ _ _ ?w0] =>
        destruct (Hrun w0) as (printed & Hp); rewrite Hp in E
    end.
    unfold bind, print, ret in E. cbn [Nat.ltb Nat.leb] in E.
    injection E as <- <-. cbn [calls out]. repeat split. apply last_snoc.
Qed.

(** X8: with complete settings, the exit status of [main] is 0 exactly
    when the run counts no failure. *)
Theorem exit_status_reports_failures
    (w : world (path := path) (server := server)) :
  let w0 : world (path := path) (server := server) :=
    {| srv := srv w; calls := calls w;
       out := (out w ++ [MsgBanner]) ++ [MsgConfiguration] |} in
  missing_config cfg = [] ->
  (fst (main uni_word os api cfg w) = 0%Z
   <-> snd (fst (process_markdown_files uni_word os api cfg (u "docs") w0))
       = 0%nat)
  /\ (fst (main uni_word os api cfg w) = 0%Z
      \/ fst (main uni_word os api cfg w) = 1%Z).
Proof.
  intros w0 Hcfg.
  destruct (main uni_word os api cfg w) as [code w'] eqn:E.
  unfold main, bind at 1, print at 1 in E. rewrite Hcfg in E.
  unfold bind at 1, print at 1 in E. unfold bind at 1 in E.
  cbn [srv calls out] in E. fold w0 in E.
  destruct (process_markdown_files uni_word os api cfg (u "docs") w0)
    as [[sc fc] w1].
  unfold bind, print, ret in E. cbn [fst snd].
  destruct fc as [|fc]; cbn [Nat.ltb Nat.leb] in E; injection E as <- <-.
  - split; [split; reflexivity|left; reflexivity].
  - split; [split; discriminate|right; reflexivity].
Qed.

Lemma count_unreadable (md_files : list path) :
  forall (success_count failure_count : nat)
    (w : world (path := path) (server := server)),
  Forall (fun f => read_text os f = None) md_files ->
  let run :=
    count_files uni_word os api cfg md_files success_count failure_count w in
  fst run = (success_count, (failure_count + List.length md_files)%nat)
  /\ calls (snd run) = calls w /\ srv (snd run) = srv w.
Proof.
  induction md_files as [|f l IH]; intros sc fc w Hall.
  - simpl. rewrite Nat.add_0_r. repeat split.
  - inversion Hall as [|? ? Hf Hl]; subst.
    assert (Hstep :
      count_files uni_word os api cfg (f :: l) sc fc w
      = count_files uni_word os api cfg l sc (S fc)
          {| srv := srv w; calls := calls w;
             out := (out w ++ [MsgProcessing f]) ++ [MsgReadError] |}).
    { cbn [count_files].
      unfold bind at 1, process_markdown_file, bind at 1, print at 1.
      rewrite Hf. reflexivity. }
    rewrite Hstep.
    destruct (IH sc (S fc)
                {| srv := srv w; calls := calls w;
                   out := (out w ++ [MsgProcessing f]) ++ [MsgReadError] |}
                Hl) as (Hcount & Hcalls & Hsrv).
    cbn [length]. rewrite Nat.add_succ_r.
    split; [exact Hcount|]. split; assumption.
Qed.

(** X21: a file that cannot be read is counted as a failure and the run
    goes on: when none of the markdown files found can be read, every
    one of them is a failure and no request is sent. *)
Theorem unreadable_files_are_failures (docs_dir : text)
    (w : world (path := path) (server := server)) :
  let md_files := rglob_md os (path_of os docs_dir) in
  let run := process_markdown_files uni_word os api cfg docs_dir w in
  exists_ os (path_of os docs_dir) = true ->
  Forall (fun f => read_text os f = None) md_files ->
  fst run = (0%nat, List.length md_files)
  /\ calls (snd run) = calls w /\ srv (snd run) = srv w.
Proof.
  intros md_files run Hdir Hall. subst md_files run.
  unfold process_markdown_files. rewrite Hdir. cbn [negb].
  destruct (rglob_md os (path_of os docs_dir)) as [|f l] eqn:E;
    [repeat split|].
  unfold bind at 1, print at 1.
  match goal with
  | |- context [count_files _ _ _ _ ?fs 0%nat 0%nat ?w0] =>
      destruct (count_unreadable fs 0%nat 0%nat w0 Hall)
        as (Hcount & Hcalls & Hsrv)
  end.
  cbn zeta in Hcount, Hcalls, Hsrv.
  rewrite Hcount. split; [reflexivity|]. split; assumption.
Qed.

End SyncExtras.

(* ------------------------------------------------------------------ *)
(** * Further properties of the settings *)

Lemma lstrip_by_head (p : char -> bool) (s : text) (c : char) (t : text) :
  lstrip_by p s = c :: t -> p c = false.
Proof.
  induction s as [|x s IH]; simpl; [discriminate|].
  destruct (p x) eqn:E; [exact IH|].
  intros H. injection H as <- _. exact E.
Qed.

Lemma rstrip_by_last (p : char -> bool) (s : text) (c : char) :
  last (rstrip_by p s) = Some c -> p c = false.
Proof.
  unfold rstrip_by. destruct (lstrip_by p (rev s)) as [|x t] eqn:E.
  - discriminate.
  - simpl rev. rewrite last_snoc. intros H. injection H as <-.
    exact (lstrip_by_head p (rev s) x t E).
Qed.

Lemma lstrip_by_all (p : char -> bool) (s : text) :
  forallb p s = true -> lstrip_by p s = [].
Proof.
  induction s as [|x s IH]; simpl; [reflexivity|].
  intros H. apply andb_prop in H as [-> H]. auto.
Qed.

Lemma forallb_rev (p : char -> bool) (s : text) :
  forallb p (rev s) = forallb p s.
Proof.
  induction s as [|x s IH]; [reflexivity|].
  simpl. rewrite forallb_app, IH. simpl. rewrite andb_true_r.
  apply andb_comm.
Qed.

(** X9: the base address read from the environment never ends with a
    slash, whatever the environment holds; and an address made of
    slashes only (or none) is read as empty, so that [validate_config]
    reports [CONFLUENCE_BASE_URL] as missing. *)
Theorem base_url_has_no_trailing_slash (environ : gmap text text) :
  last (BASE_URL (load_config environ)) <> Some (ch "/")
  /\ (forallb (is_char (ch "/"))
        (default [] (environ !! u "CONFLUENCE_BASE_URL")) = true ->
      In (u "CONFLUENCE_BASE_URL") (missing_config (load_config environ))).
Proof.
  split.
  - intros H. apply rstrip_by_last in H. discriminate.
  - intros H. unfold missing_config, load_config. cbn [BASE_URL].
    unfold rstrip_by. rewrite lstrip_by_all by (rewrite forallb_rev; exact H).
    left. reflexivity.
Qed.

(* ------------------------------------------------------------------ *)
(** * Further properties of the converter *)

(** ** Texts a stage leaves alone *)

Lemma scan_all_plain (r : regex) (s : text) :
  (forall prev, match_at r prev [] = None) ->
  (forall prev a b, s = a ++ b -> b <> [] -> match_at r prev b = None) ->
  chunks r s = List.map Plain s.
Proof.
  intros Hend Hin. unfold chunks.
  rewrite <- (app_nil_r s) at 1. rewrite scan_plain.
  - simpl. rewrite Hend. apply app_nil_r.
  - intros a b Hab Hb. rewrite app_nil_r. eapply Hin; eauto.
Qed.

Lemma chunks_without (r : regex) (c : char) (s : text) :
  (forall prev, match_at r prev [] = None) ->
  (forall prev x t, (x =? c) = false -> match_at r prev (x :: t) = None) ->
  contains c s = false ->
  chunks r s = List.map Plain s.
Proof.
  intros Hend Hhead Hs. apply scan_all_plain; [exact Hend|].
  intros prev a b Hab Hb. destruct b as [|x b]; [congruence|].
  apply Hhead. subst s. exact (contains_middle _ _ _ _ Hs).
Qed.

Lemma re_sub_without (r : regex) (c : char) (repl : list text -> text)
    (s : text) :
  (forall prev, match_at r prev [] = None) ->
  (forall prev x t, (x =? c) = false -> match_at r prev (x :: t) = None) ->
  contains c s = false ->
  re_sub r repl s = s.
Proof.
  intros Hend Hhead Hs. unfold re_sub.
  rewrite (chunks_without r c s Hend Hhead Hs). apply subst_all_plain.
Qed.

(** A pattern that begins with a literal, after [^] or not, matches
    only where that literal stands. *)
Lemma literal_first (c : char) (d : text) (l : list regex)
    (prev : option char) (suf : text) :
  match suf with [] => True | x :: _ => (x =? c) = false end ->
  match_at (seq_re (lits (c :: d) :: l)) prev suf = None.
Proof.
  intros H. unfold match_at. rewrite seq_re_cons. apply run_lits_fail.
  destruct suf as [|x t]; [reflexivity|]. apply startswith_head. exact H.
Qed.

Lemma literal_first_in_line (c : char) (d : text) (l : list regex)
    (prev : option char) (suf : text) :
  match suf with [] => True | x :: _ => (x =? c) = false end ->
  match_at (seq_re (Bol :: lits (c :: d) :: l)) prev suf = None.
Proof.
  intros H. unfold match_at. rewrite seq_re_cons.
  assert (Hk : forall n p cs,
    run (seq_re (lits (c :: d) :: l)) n p suf cs
      (fun n' _ _ cs' => Some (n', cs')) = None).
  { intros n p cs. rewrite seq_re_cons. apply run_lits_fail.
    destruct suf as [|x t]; [reflexivity|]. apply startswith_head. exact H. }
  destruct prev as [p|]; simpl run at 1; [destruct (p =? nl)|];
    auto using Hk.
Qed.

Lemma heading_sub_without (k : nat) (s : text) :
  contains (ch "#") s = false -> heading_sub (S k) s = s.
Proof.
  intros H. unfold heading_sub.
  apply (re_sub_without _ (ch "#")); [| |exact H]; intros;
    apply (literal_first_in_line (ch "#") (hashes k)); auto.
Qed.

Lemma stage_headings_without (s : text) :
  contains (ch "#") s = false -> stage_headings s = s.
Proof.
  intros H. unfold stage_headings.
  rewrite (heading_sub_without 5 s H), (heading_sub_without 4 s H),
    (heading_sub_without 3 s H), (heading_sub_without 2 s H),
    (heading_sub_without 1 s H).
  exact (heading_sub_without 0 s H).
Qed.

Lemma delim_sub_without (c : char) (d : text) (repl : list text -> text)
    (s : text) :
  contains c s = false -> re_sub (delim_re (c :: d)) repl s = s.
Proof.
  intros H. apply (re_sub_without _ c); [| |exact H]; intros;
    apply (literal_first c d); auto.
Qed.

Lemma stage_bold_without (s : text) :
  contains (ch "*") s = false -> contains (ch "_") s = false ->
  stage_bold s = s.
Proof.
  intros Hs Hu. unfold stage_bold.
  rewrite (delim_sub_without (ch "*") [ch "*"]) by exact Hs.
  apply (delim_sub_without (ch "_") [ch "_"]). exact Hu.
Qed.

Lemma stage_italic_without (s : text) :
  contains (ch "*") s = false -> contains (ch "_") s = false ->
  stage_italic s = s.
Proof.
  intros Hs Hu. unfold stage_italic.
  rewrite (delim_sub_without (ch "*") []) by exact Hs.
  apply (delim_sub_without (ch "_") []). exact Hu.
Qed.

Lemma stage_code_blocks_without (uni_word : char -> bool) (s : text) :
  contains (ch "`") s = false -> stage_code_blocks uni_word s = s.
Proof.
  intros H. unfold stage_code_blocks.
  apply (re_sub_without _ (ch "`")); [| |exact H]; intros;
    apply (literal_first (ch "`") (u "``")); auto.
Qed.

Lemma stage_inline_code_without (s : text) :
  contains (ch "`") s = false -> stage_inline_code s = s.
Proof. intros H. apply (delim_sub_without (ch "`") []). exact H. Qed.

Lemma stage_hr_without (s : text) :
  contains (ch "-") s = false -> stage_hr s = s.
Proof.
  intros H. unfold stage_hr.
  apply (re_sub_without _ (ch "-")); [| |exact H]; intros;
    apply (literal_first_in_line (ch "-") [ch "-"]); auto.
Qed.

Lemma stage_images_without {path : Type} (os : os_env path)
    (md_file_path : option path) (st : conv_state) (s : text) :
  contains (ch "!") s = false ->
  stage_images os md_file_path st s = (st, s).
Proof.
  intros H. unfold stage_images, re_sub_st.
  rewrite (chunks_without image_re (ch "!") s); [| | |exact H].
  - rewrite <- (app_nil_r (List.map Plain s)), subst_st_plain.
    simpl. rewrite app_nil_r. reflexivity.
  - intros. apply (literal_first (ch "!") [ch "["]). exact I.
  - intros. apply (literal_first (ch "!") [ch "["]). assumption.
Qed.

(** ** Lines *)

Lemma join_cons_head (sep : text) (c : char) (p : text) (ps : list text) :
  join sep ((c :: p) :: ps) = c :: join sep (p :: ps).
Proof. destruct ps; reflexivity. Qed.

Lemma join_split (sep : char) (s : text) : join [sep] (split sep s) = s.
Proof.
  induction s as [|c s IH]; [reflexivity|].
  simpl split. destruct (N.eqb_spec c sep) as [->|Hc].
  - destruct (split sep s) as [|p ps] eqn:E;
      [destruct (split_nonempty _ _ E)|].
    change (join [sep] ([] :: p :: ps)) with (sep :: join [sep] (p :: ps)).
    rewrite IH. reflexivity.
  - destruct (split sep s) as [|p ps] eqn:E;
      [destruct (split_nonempty _ _ E)|].
    rewrite join_cons_head, IH. reflexivity.
Qed.

Lemma split_join (sep : char) (lines : list text) :
  lines <> [] ->
  Forall (fun line => contains sep line = false) lines ->
  split sep (join [sep] lines) = lines.
Proof.
  induction lines as [|x l IH]; intros Hne Hall; [congruence|].
  apply Forall_cons in Hall as [Hx Hl].
  destruct l as [|y l].
  - simpl. apply split_none. exact Hx.
  - change (join [sep] (x :: y :: l)) with (x ++ sep :: join [sep] (y :: l)).
    rewrite (split_at _ _ _ Hx), IH; [reflexivity|discriminate|exact Hl].
Qed.

Lemma table_loop_plain (lines : list text) :
  forall converted_lines : list text,
  forallb (fun line => negb (is_table_line line)) lines = true ->
  table_loop lines converted_lines false []
  = (converted_lines ++ lines, false, []).
Proof.
  induction lines as [|x l IH]; intros acc H; simpl.
  - rewrite app_nil_r. reflexivity.
  - simpl in H. apply andb_prop in H as [Hx Hl].
    apply negb_true_iff in Hx. rewrite Hx, (IH _ Hl), <- app_assoc.
    reflexivity.
Qed.

Lemma table_loop_rows (lines : list text) :
  forall (converted_lines table_rows : list text),
  forallb is_table_line lines = true ->
  table_loop lines converted_lines true table_rows
  = (converted_lines, true, table_rows ++ lines).
Proof.
  induction lines as [|x l IH]; intros acc rows H; simpl.
  - rewrite app_nil_r. reflexivity.
  - simpl in H. apply andb_prop in H as [Hx Hl].
    rewrite Hx, (IH _ _ Hl), <- app_assoc. reflexivity.
Qed.

Lemma table_loop_block (lines : list text) (converted_lines : list text) :
  forallb is_table_line lines = true ->
  table_loop lines converted_lines false []
  = (converted_lines, negb (bool_decide (lines = [])), lines).
Proof.
  destruct lines as [|x l]; [reflexivity|].
  intros H. simpl in H. apply andb_prop in H as [Hx Hl].
  simpl table_loop. rewrite Hx. apply (table_loop_rows l _ [x] Hl).
Qed.

(** X10: the table stage leaves a text alone when none of its lines is
    a table line (a line that holds a pipe and begins with one, after
    whitespace): splitting into lines and joining them again gives the
    text back. *)
Theorem text_without_table_lines_is_kept (content : text) :
  forallb (fun line => negb (is_table_line line)) (split nl content) = true ->
  stage_tables content = content.
Proof.
  intros H. unfold stage_tables.
  rewrite (table_loop_plain _ [] H). simpl app. apply join_split.
Qed.

(** X11: a text made of table lines only, two or more, becomes one
    table: the first line gives the header cells, the second line is
    dropped whatever it holds, and every further line gives one row of
    data cells, in order. *)
Theorem table_block_becomes_one_table (header separator : text)
    (rows : list text) :
  forallb is_table_line (header :: separator :: rows) = true ->
  Forall (fun line => contains nl line = false)
    (header :: separator :: rows) ->
  stage_tables (join [nl] (header :: separator :: rows))
  = u "<table><tbody>" ++ table_row (u "th") (cells header)
      ++ concat (List.map (fun line => table_row (u "td") (cells line)) rows)
      ++ u "</tbody></table>".
Proof.
  intros Htable Hnl. unfold stage_tables.
  rewrite split_join by (discriminate || exact Hnl).
  rewrite (table_loop_block _ [] Htable).
  cbn [negb bool_decide decide_rel app join]. unfold convert_table, table_html.
  cbn [List.length Nat.ltb Nat.leb nth skipn].
  rewrite List.map_map. reflexivity.
Qed.

(** ** Plain text *)

Lemma split_blank_none (s : text) :
  contains nl s = false -> split_blank s = [s].
Proof.
  unfold split_blank. induction s as [|c s IH]; intros H; [reflexivity|].
  rewrite contains_cons in H. apply orb_false_elim in H as [Hc Hs].
  simpl. destruct s as [|d s]; [reflexivity|].
  rewrite N.eqb_sym, Hc. cbn [andb]. rewrite (IH Hs). reflexivity.
Qed.

Lemma plain_line_is_no_table_line (s : text) :
  contains (ch "|") s = false -> contains nl s = false ->
  stage_tables s = s.
Proof.
  intros Hp Hn. unfold stage_tables. rewrite (split_none _ _ Hn).
  cbn [table_loop]. unfold is_table_line. rewrite Hp. reflexivity.
Qed.

(** X12: a text that holds none of the characters [# * _ ` | - !] goes
    through every stage before the paragraph stage unchanged, no image
    is recorded and nothing is printed; when it is a single line, the
    result is the line stripped of surrounding whitespace and wrapped in
    a paragraph tag, except that an empty result and one that begins
    with [<] are not wrapped. *)
Theorem plain_line_becomes_paragraph {path : Type}
    (uni_word : char -> bool) (os : os_env path)
    (md_file_path : option path) (id : option text) (st : conv_state)
    (s : text) :
  forallb (fun c => negb (contains c s)) (u "#*_`|-!") = true ->
  contains nl s = false ->
  markdown_to_confluence_storage uni_word os s md_file_path id st
  = (st,
     match strip s with
     | [] => []
     | _ :: _ =>
         if startswith (u "<") (strip s) then strip s
         else u "<p>" ++ strip s ++ u "</p>"
     end).
Proof.
  intros Hplain Hnl. cbn [forallb u List.map list_ascii_of_string] in Hplain.
  repeat (apply andb_prop in Hplain as [?H Hplain]).
  repeat match goal with
         | H : negb _ = true |- _ => apply negb_true_iff in H
         end.
  unfold markdown_to_confluence_storage.
  rewrite stage_images_without by assumption.
  unfold stages_after_images.
  rewrite stage_headings_without by assumption.
  rewrite stage_bold_without by assumption.
  rewrite stage_italic_without by assumption.
  rewrite stage_code_blocks_without by assumption.
  rewrite stage_inline_code_without by assumption.
  rewrite plain_line_is_no_table_line by assumption.
  rewrite stage_hr_without by assumption.
  unfold stage_paragraphs. rewrite (split_blank_none s Hnl).
  cbn [List.map join]. unfold format_paragraph.
  destruct (strip s); reflexivity.
Qed.

(** ** Rules *)

Lemma bol_inside (l : list regex) (p : char) (suf : text) :
  (p =? nl) = false -> match_at (seq_re (Bol :: l)) (Some p) suf = None.
Proof.
  intros H. unfold match_at. rewrite seq_re_cons. simpl. rewrite H.
  reflexivity.
Qed.

Lemma scan_end (r : regex) (prev : option char) :
  scan r prev [] 0
  = match match_at r prev [] with
    | Some (_, g) => [Hit g]
    | None => []
    end.
Proof. reflexivity. Qed.

Lemma single_line_miss (l : list regex) (repl : list text -> text)
    (s : text) :
  contains nl s = false ->
  match_at (seq_re (Bol :: l)) None s = None ->
  re_sub (seq_re (Bol :: l)) repl s = s.
Proof.
  intros Hnl Hmiss. unfold re_sub, chunks.
  assert (Hend : scan (seq_re (Bol :: l)) (lastc None s) [] 0 = []).
  { rewrite scan_end. destruct s as [|c s].
    - cbn [lastc fold_left]. rewrite Hmiss. reflexivity.
    - destruct (lastc_in None (c :: s) ltac:(discriminate)) as (p & -> & Hin).
      rewrite bol_inside; [reflexivity|].
      exact (contains_in _ _ _ Hnl Hin). }
  rewrite <- (app_nil_r s) at 1. rewrite scan_plain, Hend, app_nil_r.
  - apply subst_all_plain.
  - intros a b Hab Hb. rewrite app_nil_r.
    destruct a as [|c a].
    + simpl in *. subst b. exact Hmiss.
    + destruct (lastc_in None (c :: a) ltac:(discriminate)) as (p & -> & Hin).
      apply bol_inside.
      apply (contains_in _ _ s Hnl). rewrite Hab. apply in_or_app. auto.
Qed.

Lemma single_line_hit (l : list regex) (repl : list text -> text)
    (s : text) (g : list text) :
  contains nl s = false -> s <> [] ->
  match_at (seq_re (Bol :: l)) None s = Some (List.length s, g) ->
  re_sub (seq_re (Bol :: l)) repl s = repl g.
Proof.
  intros Hnl Hs Hhit. unfold re_sub, chunks.
  rewrite <- (app_nil_r s).
  rewrite scan_hit with (g := g);
    [|exact Hs|rewrite app_nil_r; exact Hhit].
  destruct (lastc_in None s Hs) as (p & Hp & Hin).
  rewrite scan_end, Hp, bol_inside;
    [|exact (contains_in _ _ _ Hnl Hin)].
  cbn [subst]. apply app_nil_r.
Qed.

Lemma rep_greedy_none (cls : char -> bool) (suf : text) :
  forall (lo n : nat) (prev : option char)
    (k : nat -> option char -> text -> option found),
  (forall a b, suf = a ++ b -> forallb cls a = true ->
     k (n + List.length a)%nat (lastc prev a) b = None) ->
  rep_greedy cls lo n prev suf k = None.
Proof.
  induction suf as [|c suf IH]; intros lo n prev k Hk.
  - simpl. destruct lo; [|reflexivity].
    pose proof (Hk [] [] eq_refl eq_refl) as H0.
    simpl in H0. rewrite Nat.add_0_r in H0. exact H0.
  - pose proof (Hk [] (c :: suf) eq_refl eq_refl) as H0.
    simpl in H0. rewrite Nat.add_0_r in H0.
    simpl. destruct (cls c) eqn:Ec.
    + rewrite IH; [destruct lo; auto|].
      intros a b Hab Ha.
      pose proof (Hk (c :: a) b ltac:(simpl; congruence)
                    ltac:(simpl; rewrite Ec; exact Ha)) as H1.
      simpl in H1. rewrite Nat.add_succ_r in H1. exact H1.
    + destruct lo; auto.
Qed.

Lemma hr_match (s : text) :
  is_rule s = true -> match_at hr_re None s = Some (List.length s, []).
Proof.
  unfold is_rule. intros H. apply andb_prop in H as [Hlen Hall].
  destruct s as [|a [|b t]]; try discriminate.
  cbn [forallb] in Hall. apply andb_prop in Hall as [Ha Hall].
  apply andb_prop in Hall as [Hb Hall].
  unfold is_char in Ha, Hb. apply N.eqb_eq in Ha, Hb. subst a b.
  change (ch "-" :: ch "-" :: t) with (u "--" ++ t).
  unfold match_at, hr_re.
  rewrite seq_re_cons, run_bol_start, seq_re_cons, run_lits, seq_re_cons.
  rewrite run_rep_greedy. rewrite <- (app_nil_r t) at 1.
  assert (Ht : (1 <= List.length t)%nat).
  { destruct t; [discriminate Hlen|simpl; lia]. }
  apply rep_greedy_take; [exact Hall|exact I|exact Ht|].
  simpl; f_equal; f_equal; lia.
Qed.

Lemma hr_no_match (s : text) :
  contains nl s = false -> is_rule s = false ->
  match_at hr_re None s = None.
Proof.
  intros Hnl Hrule. unfold match_at, hr_re.
  rewrite seq_re_cons, run_bol_start, seq_re_cons.
  destruct (startswith (u "--") s) eqn:E; [|apply run_lits_fail; exact E].
  apply startswith_app in E. simpl List.length in E.
  set (t := skipn 2 s) in *. rewrite E.
  rewrite run_lits, seq_re_cons, run_rep_greedy.
  assert (Hnt : contains nl t = false).
  { rewrite E, contains_app in Hnl. apply orb_false_elim in Hnl. tauto. }
  assert (Ht : t = [] \/ forallb (is_char (ch "-")) t = false).
  { destruct t as [|x t']; [left; reflexivity|right].
    unfold is_rule in Hrule. rewrite E in Hrule.
    simpl in Hrule. exact Hrule. }
  destruct Ht as [->|Ht]; [apply rep_greedy_stops; [exact I|lia]|].
  apply rep_greedy_none. intros a b Hab Ha.
  destruct b as [|x b].
  - rewrite app_nil_r in Hab. subst a. congruence.
  - rewrite Hab in Hnt. simpl.
    rewrite (contains_middle _ _ _ _ Hnt). reflexivity.
Qed.

(** X13: on a single line the rule stage turns a line of three or more
    hyphens, and nothing else, into the rule tag; every other line (two
    hyphens, hyphens followed or preceded by anything) is left as it
    is. *)
Theorem rule_needs_three_hyphens_alone (s : text) :
  contains nl s = false ->
  stage_hr s = if is_rule s then u "<hr />" else s.
Proof.
  intros Hnl. unfold stage_hr, hr_re. destruct (is_rule s) eqn:E.
  - apply (single_line_hit _ (fun _ => u "<hr />") s []);
      [exact Hnl| |apply hr_match; exact E].
    destruct s; [discriminate|discriminate].
  - apply (single_line_miss _ (fun _ => u "<hr />") s);
      [exact Hnl|apply hr_no_match; assumption].
Qed.

(** ** Delimited text: emphasis and inline code *)

Lemma no_lookbehind_lits (d : text) : no_lookbehind (lits d) = true.
Proof.
  unfold lits. induction d as [|x d IH]; [reflexivity|].
  destruct d as [|y d]; [reflexivity|]. simpl in *. exact IH.
Qed.

Lemma no_lookbehind_delim (d : text) : no_lookbehind (delim_re d) = true.
Proof.
  unfold delim_re. simpl. rewrite !no_lookbehind_lits. reflexivity.
Qed.

Lemma delim_match (c : char) (d : text) (prev : option char)
    (x rest : text) :
  contains c x = false -> contains nl x = false ->
  match_at (delim_re (c :: d)) prev
    (((c :: d) ++ x ++ (c :: d)) ++ rest)
  = Some (List.length ((c :: d) ++ x ++ (c :: d)), [x]).
Proof.
  intros Hc Hnl. unfold match_at, delim_re.
  rewrite <- !app_assoc.
  rewrite seq_re_cons, run_lits, seq_re_cons.
  apply run_lazy_group; [apply forallb_dot; exact Hnl| |].
  - intros a b cs' Hab Hb. destruct b as [|y b]; [congruence|].
    subst x. apply run_lits_fail.
    apply startswith_head. exact (contains_middle _ _ _ _ Hc).
  - cbn [seq_re]. rewrite run_lits. f_equal. f_equal.
    rewrite !length_app. lia.
Qed.

Lemma delim_chunks (c : char) (d pre x rest : text) :
  contains c pre = false ->
  contains c x = false -> contains nl x = false ->
  chunks (delim_re (c :: d)) (pre ++ ((c :: d) ++ x ++ (c :: d)) ++ rest)
  = List.map Plain pre ++ Hit [x] :: chunks (delim_re (c :: d)) rest.
Proof.
  intros Hpre Hc Hnl. unfold chunks.
  rewrite scan_plain.
  - f_equal. rewrite scan_hit with (g := [x]).
    + f_equal. apply scan_prev. apply no_lookbehind_delim.
    + discriminate.
    + apply delim_match; assumption.
  - intros a b Hab Hb. destruct b as [|y b]; [congruence|].
    subst pre. apply (literal_first c d).
    exact (contains_middle _ _ _ _ Hpre).
Qed.

Lemma delim_sub (c : char) (d tag pre x rest : text) :
  contains c pre = false ->
  contains c x = false -> contains nl x = false ->
  re_sub (delim_re (c :: d)) (wrap1 tag)
    (pre ++ ((c :: d) ++ x ++ (c :: d)) ++ rest)
  = pre ++ wrap tag x ++ re_sub (delim_re (c :: d)) (wrap1 tag) rest.
Proof.
  intros Hpre Hc Hnl. unfold re_sub.
  rewrite (delim_chunks c d pre x rest Hpre Hc Hnl), subst_plain.
  reflexivity.
Qed.

(** X14: a text in backticks that holds no backtick and no newline,
    after a text without backticks, is wrapped in the code tag, and the
    stage goes on after the closing backtick. *)
Theorem inline_code_is_wrapped (pre x rest : text) :
  contains (ch "`") pre = false ->
  contains (ch "`") x = false -> contains nl x = false ->
  stage_inline_code (pre ++ (u "`" ++ x ++ u "`") ++ rest)
  = pre ++ (u "<code>" ++ x ++ u "</code>") ++ stage_inline_code rest.
Proof.
  intros Hpre Hx Hnl. unfold stage_inline_code.
  exact (delim_sub (ch "`") [] (u "code") pre x rest Hpre Hx Hnl).
Qed.

Lemma no_pair_cons (c a b : char) (t : text) :
  no_pair c (a :: b :: t)
  = negb ((a =? c) && (b =? c)) && no_pair c (b :: t).
Proof. reflexivity. Qed.

Lemma no_pair_app (c : char) (a b : text) :
  contains c a = false -> no_pair c (a ++ b) = no_pair c b.
Proof.
  induction a as [|x a IH]; intros H; [reflexivity|].
  rewrite contains_cons in H. apply orb_false_elim in H as [Hx Ha].
  rewrite N.eqb_sym in Hx. specialize (IH Ha).
  simpl app. destruct (a ++ b) as [|y t] eqn:E.
  - destruct a; [|discriminate]. simpl in E. subst b. reflexivity.
  - rewrite no_pair_cons, Hx, IH. reflexivity.
Qed.

Lemma no_pair_single (c : char) (x rest : text) :
  x <> [] -> contains c x = false -> contains c rest = false ->
  no_pair c (c :: x ++ c :: rest) = true.
Proof.
  intros Hx Hc Hr. destruct x as [|y x]; [congruence|].
  simpl app. rewrite no_pair_cons.
  rewrite contains_cons in Hc. apply orb_false_elim in Hc as [Hy Hc'].
  rewrite N.eqb_sym in Hy. rewrite Hy, andb_false_r. cbn [negb andb].
  change (y :: x ++ c :: rest) with ((y :: x) ++ c :: rest).
  rewrite no_pair_app
    by (rewrite contains_cons, N.eqb_sym, Hy, Hc'; reflexivity).
  destruct rest as [|z rest]; [reflexivity|].
  rewrite no_pair_cons.
  rewrite contains_cons in Hr. apply orb_false_elim in Hr as [Hz Hr'].
  rewrite N.eqb_sym in Hz. rewrite Hz, andb_false_r. cbn [negb andb].
  rewrite <- (app_nil_r (z :: rest)).
  apply no_pair_app. rewrite contains_cons, N.eqb_sym, Hz, Hr'. reflexivity.
Qed.

Lemma no_pair_suffix (c : char) (a b : text) :
  no_pair c (a ++ b) = true -> no_pair c b = true.
Proof.
  induction a as [|x a IH]; intros H; [exact H|].
  apply IH. simpl app in H. destruct (a ++ b) as [|y t]; [reflexivity|].
  rewrite no_pair_cons in H. apply andb_prop in H. tauto.
Qed.

Lemma double_delim_sub_without (c : char) (repl : list text -> text)
    (s : text) :
  no_pair c s = true -> re_sub (delim_re [c; c]) repl s = s.
Proof.
  intros H. unfold re_sub. rewrite scan_all_plain.
  - apply subst_all_plain.
  - intros prev. apply (literal_first c [c]). exact I.
  - intros prev a b Hab Hb. subst s. apply no_pair_suffix in H.
    unfold match_at, delim_re. rewrite seq_re_cons. apply run_lits_fail.
    destruct b as [|y [|z b]]; [congruence| |].
    + simpl. rewrite andb_false_r. reflexivity.
    + rewrite no_pair_cons in H. apply andb_prop in H as [H _].
      apply negb_true_iff in H. simpl.
      rewrite (N.eqb_sym c y), (N.eqb_sym c z).
      destruct (y =? c); [|reflexivity]. simpl in H. rewrite H. reflexivity.
Qed.

Lemma contains_wrapped (c : char) (tag pre x rest : text) :
  contains c (u "<>/") = false -> contains c tag = false ->
  contains c pre = false -> contains c x = false ->
  contains c rest = false ->
  contains c (pre ++ wrap tag x ++ rest) = false.
Proof.
  intros Hm Ht Hp Hx Hr. unfold wrap.
  cbn [u List.map list_ascii_of_string] in Hm.
  rewrite !contains_cons in Hm.
  apply orb_false_elim in Hm as [H1 Hm].
  apply orb_false_elim in Hm as [H2 Hm].
  apply orb_false_elim in Hm as [H3 _].
  cbn [u List.map list_ascii_of_string].
  rewrite !contains_app, !contains_cons, Hp, Ht, Hx, Hr, H1, H2, H3.
  reflexivity.
Qed.

Lemma no_pair_around (c : char) (pre x rest : text) :
  x <> [] -> contains c pre = false -> contains c x = false ->
  contains c rest = false ->
  no_pair c (pre ++ ([c] ++ x ++ [c]) ++ rest) = true.
Proof.
  intros Hne Hp Hx Hr. rewrite (no_pair_app c pre _ Hp).
  rewrite <- !app_assoc. apply no_pair_single; assumption.
Qed.

Lemma contains_around (c : char) (d pre x rest : text) :
  contains c d = false -> contains c pre = false ->
  contains c x = false -> contains c rest = false ->
  contains c (pre ++ (d ++ x ++ d) ++ rest) = false.
Proof.
  intros Hd Hp Hx Hr. rewrite !contains_app, Hd, Hp, Hx, Hr. reflexivity.
Qed.

(** X15: a text between two double stars or two double underscores is
    wrapped in the strong tag, and a non-empty text between two single
    stars or two single underscores in the emphasis tag, by the bold and
    italic stages together; the text holds no star, underscore or
    newline, and the text around it no star or underscore, and the text
    around it is left as it is. *)
Theorem emphasis_is_wrapped (pre x rest : text) :
  contains (ch "*") pre = false -> contains (ch "_") pre = false ->
  contains (ch "*") x = false -> contains (ch "_") x = false ->
  contains nl x = false ->
  contains (ch "*") rest = false -> contains (ch "_") rest = false ->
  let strong := pre ++ (u "<strong>" ++ x ++ u "</strong>") ++ rest in
  let em := pre ++ (u "<em>" ++ x ++ u "</em>") ++ rest in
  stage_italic (stage_bold (pre ++ (u "**" ++ x ++ u "**") ++ rest)) = strong
  /\ stage_italic (stage_bold (pre ++ (u "__" ++ x ++ u "__") ++ rest))
     = strong
  /\ (x <> [] ->
      stage_italic (stage_bold (pre ++ (u "*" ++ x ++ u "*") ++ rest)) = em
      /\ stage_italic (stage_bold (pre ++ (u "_" ++ x ++ u "_") ++ rest))
         = em).
Proof.
  intros Hps Hpu Hxs Hxu Hnl Hrs Hru strong em.
  assert (Hs1 : contains (ch "*") strong = false)
    by (apply (contains_wrapped _ (u "strong")); auto).
  assert (Hs2 : contains (ch "_") strong = false)
    by (apply (contains_wrapped _ (u "strong")); auto).
  assert (He1 : contains (ch "*") em = false)
    by (apply (contains_wrapped _ (u "em")); auto).
  assert (He2 : contains (ch "_") em = false)
    by (apply (contains_wrapped _ (u "em")); auto).
  split; [|split; [|intros Hne; split]].
  - unfold stage_bold.
    change (u "**") with (ch "*" :: [ch "*"]).
    rewrite (delim_sub (ch "*") [ch "*"] (u "strong") pre x rest)
      by assumption.
    rewrite (delim_sub_without (ch "*") [ch "*"]) by assumption.
    fold strong.
    rewrite (delim_sub_without (ch "_") [ch "_"]) by assumption.
    apply stage_italic_without; assumption.
  - unfold stage_bold.
    rewrite (delim_sub_without (ch "*") [ch "*"])
      by (apply contains_around; auto).
    change (u "__") with (ch "_" :: [ch "_"]).
    rewrite (delim_sub (ch "_") [ch "_"] (u "strong") pre x rest)
      by assumption.
    rewrite (delim_sub_without (ch "_") [ch "_"]) by assumption.
    apply stage_italic_without; assumption.
  - unfold stage_bold.
    rewrite (double_delim_sub_without (ch "*"))
      by (apply (no_pair_around (ch "*")); assumption).
    rewrite (delim_sub_without (ch "_") [ch "_"])
      by (apply contains_around; auto).
    unfold stage_italic.
    change (u "*") with (ch "*" :: []).
    rewrite (delim_sub (ch "*") [] (u "em") pre x rest) by assumption.
    rewrite (delim_sub_without (ch "*") []) by assumption.
    fold em. apply (delim_sub_without (ch "_") []). exact He2.
  - unfold stage_bold.
    rewrite (delim_sub_without (ch "*") [ch "*"])
      by (apply contains_around; auto).
    rewrite (double_delim_sub_without (ch "_"))
      by (apply (no_pair_around (ch "_")); assumption).
    unfold stage_italic.
    rewrite (delim_sub_without (ch "*") [])
      by (apply contains_around; auto).
    change (u "_") with (ch "_" :: []).
    exact (eq_trans
             (delim_sub (ch "_") [] (u "em") pre x rest Hpu Hxu Hnl)
             (f_equal (fun t => pre ++ wrap (u "em") x ++ t)
                (delim_sub_without (ch "_") [] (wrap1 (u "em")) rest Hru))).
Qed.

(** ** Headings and front-matter *)

(** X16: on a single line, hashes that are not followed by whitespace
    (as in [#tag]), and runs of seven hashes or more, are no heading:
    the heading stage leaves the line as it is. *)
Theorem hashes_alone_are_no_heading (n : nat) (rest : text) :
  stops (is_char (ch "#")) rest -> contains nl rest = false ->
  stops is_space rest \/ (6 < n)%nat ->
  stage_headings (hashes n ++ rest) = hashes n ++ rest.
Proof.
  intros Hrest Hnl Hcase. apply stage_headings_miss; [exact Hrest|exact Hnl|].
  tauto.
Qed.

Lemma run_bos_start (n : nat) (suf : text) (cs : list text)
    (k : nat -> option char -> text -> list text -> option found) :
  run Bos n None suf cs k = k n None suf cs.
Proof. reflexivity. Qed.

(** X17: a text that does not begin with three hyphens has no
    front-matter: the mapping is empty and the body is the whole text. *)
Theorem text_without_block_is_all_body (content : text) :
  startswith (u "---") content = false ->
  parse_frontmatter content = (∅, content).
Proof.
  intros H. unfold parse_frontmatter, re_match, match_at, frontmatter_re.
  rewrite seq_re_cons, run_bos_start, seq_re_cons, run_lits_fail by exact H.
  reflexivity.
Qed.

Lemma not_space_not_newline (c : char) :
  is_space c = false -> (c =? nl) = false.
Proof.
  intros H. destruct (N.eqb_spec c nl) as [->|]; [discriminate|reflexivity].
Qed.

Lemma rep_greedy_one_back (cls : char -> bool) (c : char) (rest : text)
    (n : nat) (prev : option char)
    (k : nat -> option char -> text -> option found) :
  cls c = true -> stops cls rest ->
  k (S n) (Some c) rest = None ->
  rep_greedy cls 0 n prev (c :: rest) k = k n prev (c :: rest).
Proof.
  intros Hc Hstop Hk. simpl. rewrite Hc.
  destruct rest as [|d rest]; simpl.
  - rewrite Hk. reflexivity.
  - simpl in Hstop. rewrite Hstop, Hk. reflexivity.
Qed.

Lemma run_lit_step (c y : char) (n : nat) (prev : option char)
    (suf : text) (cs : list text)
    (k : nat -> option char -> text -> list text -> option found) :
  run (Lit c) n prev (y :: suf) cs k
  = if y =? c then k (S n) (Some y) suf cs else None.
Proof. reflexivity. Qed.

Lemma lit_fails_after_space (l : list regex) (n : nat)
    (prev : option char) (suf : text) (cs : list text)
    (k : nat -> option char -> text -> list text -> option found) :
  stops is_space suf ->
  run (seq_re (Lit nl :: l)) n prev suf cs k = None.
Proof.
  intros H. rewrite seq_re_cons. destruct suf as [|c suf]; [reflexivity|].
  simpl. simpl in H. rewrite (not_space_not_newline c H). reflexivity.
Qed.

Lemma frontmatter_match (block body : text) :
  block <> [] -> stops is_space block ->
  contains (ch "-") block = false ->
  stops is_space body ->
  re_match frontmatter_re
    (u "---" ++ nl :: block ++ nl :: u "---" ++ nl :: body)
  = Some (List.length
            (u "---" ++ nl :: block ++ nl :: u "---" ++ nl :: body),
          [block; body]).
Proof.
  intros Hne Hblock Hdash Hbody.
  unfold re_match, match_at, frontmatter_re.
  rewrite seq_re_cons, run_bos_start, seq_re_cons, run_lits, seq_re_cons.
  rewrite run_rep_greedy, rep_greedy_one_back;
    [|reflexivity
     |destruct block; [congruence|exact Hblock]
     |apply lit_fails_after_space;
      destruct block; [congruence|exact Hblock]].
  rewrite seq_re_cons, run_lit, seq_re_cons.
  apply run_lazy_group; [apply forallb_dot_all| |].
  - intros a b cs' Hab Hb. destruct b as [|y b]; [congruence|].
    rewrite seq_re_cons. simpl app. rewrite run_lit_step.
    destruct (y =? nl); [|reflexivity].
    rewrite seq_re_cons. apply run_lits_fail.
    destruct b as [|z b]; [reflexivity|].
    apply startswith_head. subst block.
    apply (contains_middle (ch "-") z (a ++ [y]) b).
    rewrite <- app_assoc. exact Hdash.
  - rewrite seq_re_cons, run_lit, seq_re_cons, run_lits, seq_re_cons.
    rewrite run_rep_greedy, rep_greedy_one_back;
      [|reflexivity|exact Hbody|apply lit_fails_after_space; exact Hbody].
    rewrite seq_re_cons, run_lit, seq_re_cons.
    rewrite <- (app_nil_r body) at 1.
    apply run_greedy_group; [apply forallb_dot_all|exact I|].
    simpl. rewrite length_app. simpl length. f_equal. f_equal. lia.
Qed.

(** X18: a text that opens with a line [---], a block of lines and a
    line [---] is split into the mapping read from the lines of the
    block and the body, which is all the text after the closing line;
    here the block is not empty, begins with no whitespace and holds no
    hyphen, and the body begins with no whitespace. *)
Theorem block_and_body_are_split (block body : text) :
  block <> [] -> stops is_space block ->
  contains (ch "-") block = false ->
  stops is_space body ->
  parse_frontmatter (u "---" ++ nl :: block ++ nl :: u "---" ++ nl :: body)
  = (fold_left frontmatter_line (split nl block) ∅, body).
Proof.
  intros Hne Hblock Hdash Hbody. unfold parse_frontmatter.
  rewrite (frontmatter_match block body Hne Hblock Hdash Hbody).
  reflexivity.
Qed.

(* ------------------------------------------------------------------ *)
(** * The further properties on the second setting *)

Lemma lookup_failure_is_skipped_witness :
  exists w',
    process_markdown_file Demo.no_uni_word Album.os Album.api Demo.cfg
      (u "docs/pinned.md") (Album.world0 0) = (false, w')
    /\ calls w' = [GetContent (u "42")]
    /\ last (out w') = Some (MsgSkipping (u "42")).
Proof.
  destruct (lookup_failure_is_skipped Demo.no_uni_word Album.os Album.api
              Demo.cfg (u "docs/pinned.md") Demo.pinned_file (u "42")
              (Album.world0 0) RequestException 0%nat)
    as (w' & Hfile & Hcalls & _ & Hout); try (vm_compute; reflexivity).
  exists w'. split; [exact Hfile|]. split; [exact Hcalls|exact Hout].
Defined.

Lemma update_answer_decides_success_witness :
  exists w',
    process_markdown_file Demo.no_uni_word Album.os Album.api Demo.cfg
      (u "docs/pinned.md") (Album.world0 1) = (false, w')
    /\ calls w'
       = [GetContent (u "42");
          PutContent (u "42") 6 (u "pinned")
            (u "<h1>Hello</h1>" ++ [nl] ++ u "<p>World</p>")].
Proof.
  destruct (update_answer_decides_success Demo.no_uni_word Album.os
              Album.api Demo.cfg (u "docs/pinned.md") Demo.pinned_file
              (u "42") (Album.world0 1)
              (Album.stored_page (u "42") (u "Pinned") 5) RequestException
              0%nat 0%nat)
    as (w' & Hfile & Hcalls); try (vm_compute; reflexivity).
  exists w'. split; [exact Hfile|]. exact (proj1 (Hcalls eq_refl)).
Defined.

Lemma creation_answer_decides_success_witness :
  exists w',
    process_markdown_file Demo.no_uni_word Album.os Album.api Demo.cfg
      (u "docs/picture.md") (Album.world0 1) = (false, w')
    /\ calls w'
       = [SearchContent (u "DOCS") (u "picture");
          PostContent (u "DOCS") (u "picture")
            (u "<ac:image><ri:attachment ri:filename=" ++ [dq]
               ++ u "logo.png" ++ [dq] ++ u " /></ac:image>")
            None].
Proof.
  destruct (creation_answer_decides_success Demo.no_uni_word Album.os
              Album.api Demo.cfg (u "docs/picture.md") Album.picture_file
              (Album.world0 1) (Response 200 []) RequestException
              0%nat 0%nat)
    as (w' & Hfile & Hcalls); try (vm_compute; reflexivity).
  exists w'. split; [exact Hfile|]. exact (proj1 (Hcalls eq_refl)).
Defined.

Lemma created_page_with_images_is_updated_again_witness :
  let value :=
    u "<ac:image><ri:attachment ri:filename=" ++ [dq] ++ u "logo.png"
      ++ [dq] ++ u " /></ac:image>" in
  let run :=
    process_markdown_file Demo.no_uni_word Album.os Album.api Demo.cfg
      (u "docs/picture.md") (Album.world0 10) in
  exists uploads,
    fst run = true
    /\ calls (snd run)
       = [SearchContent (u "DOCS") (u "picture");
          PostContent (u "DOCS") (u "picture") value None]
         ++ uploads ++ [PutContent (u "1") 2 (u "picture") value]
    /\ Forall (is_upload_of Album.os (u "1") [u "docs/logo.png"]) uploads.
Proof.
  destruct (created_page_with_images_is_updated_again Demo.no_uni_word
              Album.os Album.api Demo.cfg (u "docs/picture.md")
              Album.picture_file (Album.world0 10) (Response 200 [])
              (Album.stored_page (u "1") (u "picture") 1) 9%nat 8%nat
              (u "docs/logo.png") [])
    as (uploads & Hok & Hcalls & Hall & _); try (vm_compute; reflexivity).
  exists uploads. split; [exact Hok|]. split; [exact Hcalls|exact Hall].
Defined.

Lemma upload_replaces_attachment_of_same_name_witness :
  calls (snd (upload_attachment Album.os Album.api (u "1")
                (u "docs/logo.png") (Album.world0 3)))
  = [GetAttachments (u "1");
     PostAttachmentData (u "1") (u "att9") (u "logo.png")
       (u "docs/logo.png")]
  /\ fst (upload_attachment Album.os Album.api (u "1") (u "docs/logo.png")
            (Album.world0 0)) = None.
Proof.
  split.
  - apply (proj1 (upload_replaces_attachment_of_same_name Album.os
                    Album.api (u "1") (u "docs/logo.png") (Album.world0 3)
                    (Response 200 [Album.logo]) 2%nat eq_refl));
      [discriminate|vm_compute; reflexivity].
  - apply (proj2 (upload_replaces_attachment_of_same_name Album.os
                    Album.api (u "1") (u "docs/logo.png") (Album.world0 0)
                    RequestException 0%nat eq_refl)).
    left. reflexivity.
Defined.

Lemma main_without_work_witness :
  fst (main Demo.no_uni_word Demo.os Demo.api (load_config ∅)
         (Demo.world0 [])) = 1%Z
  /\ calls (snd (main Demo.no_uni_word Demo.os Demo.api (load_config ∅)
                   (Demo.world0 []))) = []
  /\ fst (main Demo.no_uni_word Album.bare Album.api Demo.cfg
            (Album.world0 3)) = 0%Z
  /\ calls (snd (main Demo.no_uni_word Album.bare Album.api Demo.cfg
                   (Album.world0 3))) = [].
Proof.
  destruct (proj1 (main_without_work Demo.no_uni_word Demo.os Demo.api
                     (load_config ∅) (Demo.world0 [])))
    as (H1 & H2 & _); [vm_compute; discriminate|].
  destruct (proj2 (main_without_work Demo.no_uni_word Album.bare Album.api
                     Demo.cfg (Album.world0 3)))
    as (H3 & H4 & _); [vm_compute; reflexivity|left; reflexivity|].
  split; [exact H1|]. split; [exact H2|]. split; [exact H3|exact H4].
Defined.

Lemma exit_status_reports_failures_witness :
  missing_config Demo.cfg = []
  /\ (fst (main Demo.no_uni_word Album.os Album.api Demo.cfg
             (Album.world0 0)) = 0%Z
      <-> snd (fst (process_markdown_files Demo.no_uni_word Album.os
                      Album.api Demo.cfg (u "docs")
                      {| srv := 0%nat; calls := [];
                         out := [MsgBanner; MsgConfiguration] |}))
          = 0%nat).
Proof.
  assert (H : missing_config Demo.cfg = []) by (vm_compute; reflexivity).
  split; [exact H|].
  exact (proj1 (exit_status_reports_failures Demo.no_uni_word Album.os
                  Album.api Demo.cfg (Album.world0 0) H)).
Defined.

Lemma unreadable_files_are_failures_witness :
  fst (process_markdown_files Demo.no_uni_word Album.locked Album.api
         Demo.cfg (u "docs") (Album.world0 5)) = (0%nat, 2%nat)
  /\ calls (snd (process_markdown_files Demo.no_uni_word Album.locked
                   Album.api Demo.cfg (u "docs") (Album.world0 5))) = [].
Proof.
  destruct (unreadable_files_are_failures Demo.no_uni_word Album.locked
              Album.api Demo.cfg (u "docs") (Album.world0 5))
    as (Hcount & Hcalls & _);
    [vm_compute; reflexivity|repeat constructor|].
  split; [exact Hcount|exact Hcalls].
Defined.

Lemma base_url_has_no_trailing_slash_witness :
  last (BASE_URL (load_config
                    (<[u "CONFLUENCE_BASE_URL" := u "https://wiki.example//"]>
                       ∅)))
  <> Some (ch "/")
  /\ In (u "CONFLUENCE_BASE_URL")
       (missing_config
          (load_config (<[u "CONFLUENCE_BASE_URL" := u "//"]> ∅))).
Proof.
  split.
  - exact (proj1 (base_url_has_no_trailing_slash
                    (<[u "CONFLUENCE_BASE_URL" := u "https://wiki.example//"]>
                       ∅))).
  - apply (proj2 (base_url_has_no_trailing_slash
                    (<[u "CONFLUENCE_BASE_URL" := u "//"]> ∅))).
    vm_compute. reflexivity.
Defined.

Lemma scripts_no_id_creates_witness :
  calls (snd (Scripts.process_markdown_file Demo.no_uni_word Demo.os
                Demo.api Album.cfg (u "docs/plain.md") (Demo.world0 [])))
  = [PostContent (u "DOCS") (u "plain")
       (u "<h1>Hello</h1>" ++ [nl] ++ u "<p>World</p>") (Some (u "12"))].
Proof.
  apply (scripts_no_id_creates Demo.no_uni_word Demo.os Demo.api Album.cfg
           (u "docs/plain.md") Demo.plain_file (Demo.world0 []));
    vm_compute; reflexivity.
Defined.

Lemma scripts_identified_path_witness :
  calls (snd (Scripts.process_markdown_file Demo.no_uni_word Demo.os
                Demo.api Demo.cfg (u "docs/pinned.md")
                (Demo.world0 [Demo.page42])))
  = [GetContent (u "42");
     PutContent (u "42") 6 (u "pinned")
       (u "<h1>Hello</h1>" ++ [nl] ++ u "<p>World</p>")].
Proof.
  refine (proj1 (scripts_identified_path Demo.no_uni_word Demo.os Demo.api
                   Demo.cfg (u "docs/pinned.md") Demo.pinned_file (u "42")
                   (Demo.world0 [Demo.page42]) 200 Demo.page42
                   [Demo.page42] _ _ _ _));
    [vm_compute; reflexivity|vm_compute; reflexivity
    |vm_compute; reflexivity|left; reflexivity].
Defined.

(** * The further properties of the converter on examples *)

Lemma text_without_table_lines_is_kept_witness :
  stage_tables (u "a | b" ++ [nl] ++ u "c") = u "a | b" ++ [nl] ++ u "c".
Proof.
  apply (text_without_table_lines_is_kept (u "a | b" ++ [nl] ++ u "c")).
  vm_compute. reflexivity.
Defined.

Lemma table_block_becomes_one_table_witness :
  stage_tables (join [nl] [u "| a | b |"; u "|---|---|"; u "| 1 | 2 |"])
  = u "<table><tbody><tr><th>a</th><th>b</th></tr>"
      ++ u "<tr><td>1</td><td>2</td></tr></tbody></table>".
Proof.
  etransitivity;
    [apply (table_block_becomes_one_table (u "| a | b |") (u "|---|---|")
              [u "| 1 | 2 |"]);
     [vm_compute; reflexivity|repeat constructor]
    |vm_compute; reflexivity].
Defined.

Lemma plain_line_becomes_paragraph_witness :
  markdown_to_confluence_storage Demo.no_uni_word Demo.os
    (u "  Hello world ") None None (Some [], [])
  = ((Some [], []), u "<p>Hello world</p>").
Proof.
  etransitivity;
    [apply (plain_line_becomes_paragraph Demo.no_uni_word Demo.os None None
              (Some [], []) (u "  Hello world "));
     vm_compute; reflexivity
    |vm_compute; reflexivity].
Defined.

Lemma rule_needs_three_hyphens_alone_witness :
  stage_hr (u "-----") = u "<hr />" /\ stage_hr (u "--") = u "--".
Proof.
  split.
  - etransitivity;
      [apply (rule_needs_three_hyphens_alone (u "-----")); reflexivity
      |reflexivity].
  - etransitivity;
      [apply (rule_needs_three_hyphens_alone (u "--")); reflexivity
      |reflexivity].
Defined.

Lemma inline_code_is_wrapped_witness :
  stage_inline_code (u "run `make` now") = u "run <code>make</code> now".
Proof.
  etransitivity;
    [apply (inline_code_is_wrapped (u "run ") (u "make") (u " now"));
     vm_compute; reflexivity
    |vm_compute; reflexivity].
Defined.

Lemma emphasis_is_wrapped_witness :
  stage_italic (stage_bold (u "a **b** c")) = u "a <strong>b</strong> c"
  /\ stage_italic (stage_bold (u "a _b_ c")) = u "a <em>b</em> c".
Proof.
  destruct (emphasis_is_wrapped (u "a ") (u "b") (u " c"))
    as (Hbold & _ & Hitalic); try (vm_compute; reflexivity).
  destruct Hitalic as [_ Hitalic]; [discriminate|].
  split; [exact Hbold|exact Hitalic].
Defined.

Lemma hashes_alone_are_no_heading_witness :
  stage_headings (u "#tag") = u "#tag"
  /\ stage_headings (u "####### seven") = u "####### seven".
Proof.
  split.
  - apply (hashes_alone_are_no_heading 1 (u "tag"));
      [vm_compute; reflexivity|vm_compute; reflexivity
      |left; vm_compute; reflexivity].
  - apply (hashes_alone_are_no_heading 7 (u " seven"));
      [vm_compute; reflexivity|vm_compute; reflexivity|right; lia].
Defined.

Lemma text_without_block_is_all_body_witness :
  parse_frontmatter Demo.plain_file = (∅, Demo.plain_file).
Proof.
  apply (text_without_block_is_all_body Demo.plain_file).
  vm_compute. reflexivity.
Defined.

Lemma block_and_body_are_split_witness :
  parse_frontmatter Demo.intro_file
  = (<[u "confluence_title" := u "Intro"]> ∅, Demo.intro_body).
Proof.
  etransitivity;
    [apply (block_and_body_are_split
              (u "confluence_title: " ++ [dq] ++ u "Intro" ++ [dq])
              Demo.intro_body);
     [discriminate|vm_compute; reflexivity..]
    |vm_compute; reflexivity].
Defined.

(* ------------------------------------------------------------------ *)
(** * The two copies of the script *)

Section BothCopies.

Context {path server : Type}.
Variable uni_word : char -> bool.
Variable os : os_env path.
Variable api : remote path server.
Variable cfg : config.

(** C1, as amended: for a file whose front-matter names no page, the
    copy under [tools/confluence-sync/] first searches the target space
    for the title. When the answer holds a page with exactly that title,
    the next request updates that page with its version plus one and no
    page is created; otherwise the next request creates the page in the
    target space, under the target parent when that is not empty, and it
    is the only creation. The copy under [scripts/] does not search: its
    only request creates the page, in the target space and under the
    target parent when that is not empty. *)
Theorem title_search_decides_update_or_create (md_file : path)
    (content : text) (w : world (path := path) (server := server))
    (r : response (list page)) (s1 : server) :
  let frontmatter := fst (parse_frontmatter content) in
  let title :=
    default (stem os md_file) (frontmatter !! u "confluence_title") in
  let space_key :=
    default (SPACE_KEY cfg) (frontmatter !! u "confluence_space_key") in
  let parent_id :=
    default (PARENT_ID cfg) (frontmatter !! u "confluence_parent_id") in
  let ancestor :=
    match parent_id with
    | [] => None
    | _ :: _ => Some parent_id
    end in
  let value :=
    snd (markdown_to_confluence_storage uni_word os
           (snd (parse_frontmatter content)) (Some md_file) None
           (Some [], [])) in
  read_text os md_file = Some content ->
  frontmatter !! u "confluence_page_id" = None ->
  search_content api (srv w) space_key title = (r, s1) ->
  (forall pg, search_hit title r = Some pg -> page_title pg = title)
  /\ (exists rest,
        calls (snd (process_markdown_file uni_word os api cfg md_file w))
        = calls w
          ++ SearchContent space_key title
          :: match search_hit title r with
             | Some pg =>
                 PutContent (page_id pg) (version_number pg + 1) title value
             | None => PostContent space_key title value ancestor
             end
          :: rest
        /\ Forall (fun rq => ~ is_create rq) rest)
  /\ calls (snd (Scripts.process_markdown_file uni_word os api cfg md_file
                   w))
     = calls w
       ++ [PostContent space_key title
             (Scripts.markdown_to_confluence_storage uni_word
                (snd (parse_frontmatter content)))
             ancestor].
Proof.
  intros frontmatter title space_key parent_id ancestor value Hread Hid
    Hsearch.
  split; [|split].
  - intros pg Hhit. destruct r as [status results|]; simpl in Hhit;
      [|discriminate].
    destruct (status =? 200)%Z; [|discriminate].
    apply find_titled_some in Hhit. tauto.
  - destruct (search_path_calls uni_word os api cfg md_file content w r s1
                Hread Hid Hsearch) as (rest & Hcalls & Hnc & _).
    exists rest. split; [exact Hcalls|exact Hnc].
  - subst frontmatter title space_key parent_id ancestor value.
    unfold Scripts.process_markdown_file, bind at 1, print at 1.
    rewrite Hread.
    destruct (parse_frontmatter content) as [frontmatter body].
    cbn [fst snd] in *. rewrite Hid. unfold bind at 1.
    match goal with
    | |- context [create_page api cfg ?s ?t ?c ?p ?w0] =>
        pose proof (create_page_calls api cfg s t c p w0) as Hpost;
        destruct (create_page api cfg s t c p w0) as [result w1]
    end.
    cbn [snd calls] in Hpost.
    destruct result; unfold bind, print, ret; cbn [fst snd calls];
      exact Hpost.
Qed.

End BothCopies.

(** C1, as stated, fails on the copy under [scripts/]: the file
    [docs/plain.md] names no page, and the remote holds page 7 with
    exactly its title, which a search of the space finds; the copy sends
    neither a search nor an update, its only request creates a second
    page of that title. *)
Lemma title_search_counterexample :
  fst (parse_frontmatter Demo.plain_file) !! u "confluence_page_id" = None
  /\ search_hit (u "plain")
       (fst (search_content Demo.api [Demo.page7] (u "DOCS") (u "plain")))
     = Some Demo.page7
  /\ calls (snd (Scripts.process_markdown_file Demo.no_uni_word Demo.os
                   Demo.api Demo.cfg (u "docs/plain.md")
                   (Demo.world0 [Demo.page7])))
     = [PostContent (u "DOCS") (u "plain")
          (u "<h1>Hello</h1>" ++ [nl] ++ u "<p>World</p>") None].
Proof. repeat split; vm_compute; reflexivity. Qed.

Lemma title_search_decides_update_or_create_witness :
  (exists value rest,
     calls (snd (process_markdown_file Demo.no_uni_word Demo.os Demo.api
                   Demo.cfg (u "docs/plain.md") (Demo.world0 [Demo.page7])))
     = SearchContent (u "DOCS") (u "plain")
       :: PutContent (u "7") 4 (u "plain") value :: rest)
  /\ (exists value rest,
        calls (snd (process_markdown_file Demo.no_uni_word Demo.os Demo.api
                      Album.cfg (u "docs/plain.md") (Demo.world0 [])))
        = SearchContent (u "DOCS") (u "plain")
          :: PostContent (u "DOCS") (u "plain") value (Some (u "12"))
          :: rest)
  /\ exists value,
       calls (snd (Scripts.process_markdown_file Demo.no_uni_word Demo.os
                     Demo.api Album.cfg (u "docs/plain.md")
                     (Demo.world0 [])))
       = [PostContent (u "DOCS") (u "plain") value (Some (u "12"))].
Proof.
  destruct (title_search_decides_update_or_create Demo.no_uni_word Demo.os
              Demo.api Demo.cfg (u "docs/plain.md") Demo.plain_file
              (Demo.world0 [Demo.page7]) (Response 200 [Demo.page7])
              [Demo.page7])
    as (_ & (rest1 & Hupdate & _) & _); try (vm_compute; reflexivity).
  destruct (title_search_decides_update_or_create Demo.no_uni_word Demo.os
              Demo.api Album.cfg (u "docs/plain.md") Demo.plain_file
              (Demo.world0 []) (Response 200 []) [])
    as (_ & (rest2 & Hcreate & _) & Hscripts); try (vm_compute; reflexivity).
  split; [eexists _, rest1; exact Hupdate|].
  split; [eexists _, rest2; exact Hcreate|].
  eexists. exact Hscripts.
Defined.

(* ------------------------------------------------------------------ *)
(** * The converter on a line the later stages leave alone *)












(* ------------------------------------------------------------------ *)
(** * The converter on a fenced block *)














